(** * simple-rag-app: the session-scoped retrieval and indexing pipeline

    A shallow embedding of the Python services of the repository
    ([src/services], [src/chains], [src/models], [main.py]) and the
    properties of its specification that concern them.

    Python objects are records; the attributes a method mutates are
    threaded through a state-and-exception monad whose state survives a
    raised exception, as the attributes of a Python object do.  The
    libraries the services call (the PDF and HTML loaders, the text
    splitter, the vector store's ranking functions, the chat model) are
    collaborators: they are the fields of the class [Libraries], and every
    call to one of them is recorded in a trace, the way the repository's
    tests record calls on mocks. *)

From Stdlib Require Import ZArith QArith.
From stdpp Require Import base option list strings gmap pretty.

Local Open Scope string_scope.
Local Open Scope list_scope.

(** ** Python primitives *)

Module Py.

(** [s.endswith(suffix)] *)
Definition endswith (s suffix : string) : bool :=
  bool_decide (String.length suffix ≤ String.length s)%nat &&
  String.eqb
    (String.substring (String.length s - String.length suffix)
                      (String.length suffix) s)
    suffix.

(** [sub in s] for strings *)
Fixpoint contains (sub s : string) : bool :=
  String.prefix sub s ||
  match s with
  | EmptyString => false
  | String _ s' => contains sub s'
  end.

(** A Python [str] is a sequence of Unicode characters; a [string] here
    holds it in UTF-8, one to four bytes per character, as a string literal
    of this file does.  [utf8_width] is the number of bytes of the
    character a byte starts. *)
Definition utf8_width (c : Ascii.ascii) : nat :=
  let n := Ascii.nat_of_ascii c in
  if (n <? 192)%nat then 1
  else if (n <? 224)%nat then 2
  else if (n <? 240)%nat then 3
  else if (n <? 248)%nat then 4
  else 1.

(** The characters of a [str], each as the bytes that encode it; [skip]
    counts the bytes still to pass of the character before. *)
Fixpoint chars_from (skip : nat) (s : string) : list string :=
  match s with
  | EmptyString => []
  | String c rest =>
      match skip with
      | S skip' => chars_from skip' rest
      | O =>
          String.substring 0 (utf8_width c) s
            :: chars_from (utf8_width c - 1) rest
      end
  end.

Definition chars (s : string) : list string := chars_from 0 s.

(** [c.isspace()] for one character: the white space of [str.strip()],
    which is U+0009 to U+000D, U+001C to U+0020, U+0085, U+00A0, U+1680,
    U+2000 to U+200A, U+2028, U+2029, U+202F, U+205F and U+3000. *)
Definition isspace (c : string) : bool :=
  match Ascii.nat_of_ascii <$> String.list_ascii_of_string c with
  | [n] => ((9 <=? n) && (n <=? 13) || (28 <=? n) && (n <=? 32))%nat
  | [194; n] => ((n =? 133) || (n =? 160))%nat
  | [225; 154; 128] => true
  | [226; 128; n] =>
      ((128 <=? n) && (n <=? 138) || (n =? 168) || (n =? 169) || (n =? 175))%nat
  | [226; 129; 159] => true
  | [227; 128; 128] => true
  | _ => false
  end.

Fixpoint drop_spaces (cs : list string) : list string :=
  match cs with
  | [] => []
  | c :: cs' => if isspace c then drop_spaces cs' else cs
  end.

(** [s.lstrip()], [s.rstrip()] and [s.strip()] *)
Definition lstrip (s : string) : string :=
  String.concat "" (drop_spaces (chars s)).

Definition rstrip (s : string) : string :=
  String.concat "" (rev (drop_spaces (rev (chars s)))).

Definition strip (s : string) : string := rstrip (lstrip s).

(** Truth value of a string: [bool(s)] *)
Definition truthy (s : string) : bool :=
  match s with EmptyString => false | _ => true end.

(** Truth value of an optional string ([None] and [""] are false). *)
Definition truthy_opt (o : option string) : bool :=
  match o with Some s => truthy s | None => false end.

(** [a or b] on optional strings *)
Definition or_ (a b : option string) : option string :=
  if truthy_opt a then a else b.

(** [o is not None] *)
Definition is_not_None {A} (o : option A) : bool :=
  match o with Some _ => true | None => false end.

(** [sep.join(parts)] *)
Definition join (sep : string) (parts : list string) : string :=
  String.concat sep parts.

(** [repr] of a list of non-negative integers, as an f-string prints it. *)
Definition repr_list (l : list nat) : string :=
  "[" ++ join ", " (pretty <$> l) ++ "]".

(** [[i for i, x in enumerate(l) if p(x)]] *)
Fixpoint indices_from {A} (p : A → bool) (i : nat) (l : list A) : list nat :=
  match l with
  | [] => []
  | x :: l' => (if p x then [i] else []) ++ indices_from p (S i) l'
  end.

Definition indices {A} (p : A → bool) (l : list A) : list nat :=
  indices_from p 0 l.

End Py.

(** ** Exceptions and the state monad of the services *)

(** The exceptions the services and handlers raise or receive; all of them
    are subclasses of Python's [Exception]. *)
Inductive exn : Type :=
  | ValueError (msg : string)
  | KeyError (key : string)
  | HTTPException (status_code : Z) (detail : string)
  | Exception (msg : string).

Inductive Res (A : Type) : Type :=
  | Ok (a : A)
  | Raise (e : exn).
Arguments Ok {A} a.
Arguments Raise {A} e.

Definition is_ok {A} (r : Res A) : bool :=
  match r with Ok _ => true | Raise _ => false end.

(** A computation over a state [S]: the state is returned in both outcomes. *)
Definition M (S A : Type) : Type := S → Res A * S.

Definition ret {S A} (a : A) : M S A := λ s, (Ok a, s).

Definition bind {S A B} (m : M S A) (k : A → M S B) : M S B :=
  λ s, match m s with
       | (Ok a, s') => k a s'
       | (Raise e, s') => (Raise e, s')
       end.

Definition raise {S A} (e : exn) : M S A := λ s, (Raise e, s).

(** [try: m  except Exception as e: h e] *)
Definition try_except {S A} (m : M S A) (h : exn → M S A) : M S A :=
  λ s, match m s with
       | (Ok a, s') => (Ok a, s')
       | (Raise e, s') => h e s'
       end.

Definition get {S} : M S S := λ s, (Ok s, s).
Definition put {S} (s : S) : M S unit := λ _, (Ok tt, s).
Definition modify {S} (f : S → S) : M S unit := λ s, (Ok tt, f s).

(** Run a computation on a component of the state. *)
Definition zoom {S T A} (proj : S → T) (upd : T → S → S) (m : M T A) : M S A :=
  λ s, let '(r, t) := m (proj s) in (r, upd t s).

(** Lift a result computed by a collaborator. *)
Definition lift_res {S A} (r : Res A) : M S A := λ s, (r, s).

Notation "'let!' x ':=' m 'in' k" := (bind m (λ x, k))
  (at level 10, x name, m at level 100, k at level 200).
Notation "'do!' m 'in' k" := (bind m (λ _, k))
  (at level 10, m at level 100, k at level 200).

(** [for x in xs: body x] *)
Fixpoint for_each {S A} (xs : list A) (body : A → M S unit) : M S unit :=
  match xs with
  | [] => ret tt
  | x :: xs' => do! body x in for_each xs' body
  end.

(** ** Data model *)

(** A LangChain [Document]: the raw unit the loaders produce and the chunk
    the splitter produces. *)
Record Document : Type := {
  page_content : string;
  metadata : gmap string string
}.

(** [HuggingFaceEmbeddings(model_name=..., model_kwargs=..., encode_kwargs=...)] *)
Record HuggingFaceEmbeddings : Type := {
  model_name : string;
  hf_model_kwargs : gmap string string;
  hf_encode_kwargs : gmap string bool
}.

(** A handle on a collection of the vector store. *)
Record Chroma : Type := {
  chroma_collection_name : string;
  chroma_embedding_function : HuggingFaceEmbeddings
}.

(** The chat models [get_llm] instantiates.  A temperature is only handed
    on to the model; it is carried as a rational number. *)
Inductive BaseChatModel : Type :=
  | ChatGroq (model : string) (temperature : Q) (api_key : string)
  | ChatGoogleGenerativeAI (model : string) (temperature : Q)
                           (google_api_key : string)
  | ChatOllama (model : string) (temperature : Q).

(** What [retriever = vectorstore.as_retriever(search_type=..., search_kwargs=...)]
    holds. *)
Record VectorStoreRetriever : Type := {
  retriever_vectorstore : Chroma;
  search_type : string;
  search_kwargs : gmap string Z
}.

Inductive level : Type := WARNING | ERROR | CRITICAL.

(** A record of the [logging] module.  Records below WARNING (the [info]
    and [debug] progress notes) are not part of the model. *)
Record LogRecord : Type := {
  levelname : level;
  message : string
}.

(** A call to a collaborator. *)
Inductive Call : Type :=
  | CallPyPDFLoader (file_path : string)
  | CallBSHTMLLoader (file_path open_encoding : string)
  | CallTextSplitter (chunk_size chunk_overlap : Z) (documents : list Document)
  | CallGetEmbeddings (name : string)
  | CallChroma (collection : string)
  | CallChromaFromDocuments (collection : string) (documents : list Document)
  | CallChromaAddDocuments (collection : string) (documents : list Document)
  | CallRetrieverInvoke (r : VectorStoreRetriever) (query : string)
  | CallChatModel (llm : BaseChatModel) (prompt : string).

(** The part of the process every service shares: the collections of the
    vector store, keyed by collection name, each holding its entries in
    insertion order; the log; and the trace of calls to collaborators. *)
Record World : Type := {
  collections : gmap string (list Document);
  environ : gmap string string;
  log : list LogRecord;
  trace : list Call
}.

(** A process that has just started, with the given environment. *)
Definition World0 (env : gmap string string) : World :=
  {| collections := ∅; environ := env; log := []; trace := [] |}.

Definition set_collections (f : gmap string (list Document) → gmap string (list Document))
    (w : World) : World :=
  {| collections := f (collections w); environ := environ w;
     log := log w; trace := trace w |}.

Definition called (c : Call) : M World unit :=
  modify (λ w, {| collections := collections w; environ := environ w;
                  log := log w; trace := trace w ++ [c] |}).

Definition emit (l : level) (msg : string) : M World unit :=
  modify (λ w, {| collections := collections w; environ := environ w;
                  log := log w ++ [{| levelname := l; message := msg |}];
                  trace := trace w |}).

(** [str(e)] *)
Definition str_exn (e : exn) : string :=
  match e with
  | ValueError msg => msg
  | KeyError key => "'" ++ key ++ "'"
  | HTTPException status_code detail => pretty status_code ++ ": " ++ detail
  | Exception msg => msg
  end.

(** The collaborators.  Ranking by embedding similarity and the greedy
    selection of maximal marginal relevance are floating-point computations
    of the vector store library; the model takes them as given functions
    of the query, the requested size and the stored entries. *)
Class Libraries : Type := {
  (** [PyPDFLoader(file_path).load()]: one Document per page, or an error *)
  PyPDFLoader_load : string → Res (list Document);
  (** [BSHTMLLoader(file_path, open_encoding=...).load()] *)
  BSHTMLLoader_load : string → string → Res (list Document);
  (** [RecursiveCharacterTextSplitter(chunk_size, chunk_overlap,
      length_function=len).split_documents(documents)] *)
  text_splitter_split_documents : Z → Z → list Document → list Document;
  (** the [n] entries most similar to the query, best first *)
  similarity_search : string → Z → list Document → list Document;
  (** greedy selection of [k] entries from a candidate pool, balancing
      similarity to the query against similarity to the entries already
      selected *)
  maximal_marginal_relevance : string → Z → list Document → list Document;
  (** any other search type of the retriever *)
  other_search : string → gmap string Z → string → list Document
                 → Res (list Document);
  (** [Chroma(collection_name=..., embedding_function=...)]: the entries
      the collection of that name holds once the constructor has returned,
      from those it held before; whether a collection of the name is reused
      or started afresh is the library's affair *)
  Chroma_init : string → list Document → list Document;
  (** [llm.invoke(prompt)] followed by [StrOutputParser()] *)
  chat_model_invoke : BaseChatModel → string → Res string;
  (** [torch.cuda.is_available()] *)
  torch_cuda_is_available : bool
}.

(** ** The vector store library, as the services use it *)

Section Chroma.
Context `{Libraries}.

(** The entries of the collection a handle refers to. *)
Definition entries_of (collection_name : string) (w : World) : list Document :=
  default [] (collections w !! collection_name).

(** [Chroma(collection_name=..., embedding_function=...)]: the handle of
    the named collection.  What the collection holds afterwards is the
    library's to say ([Chroma_init]); the services only construct. *)
Definition Chroma_new (collection_name : string)
    (embedding_function : HuggingFaceEmbeddings) : M World Chroma :=
  do! called (CallChroma collection_name) in
  let! w := get in
  let kept := Chroma_init collection_name (entries_of collection_name w) in
  do! modify (set_collections (<[collection_name := kept]>)) in
  ret {| chroma_collection_name := collection_name;
         chroma_embedding_function := embedding_function |}.

(** [Chroma.from_documents(documents=..., embedding=..., collection_name=...)]:
    the library constructs the store and adds the documents to it. *)
Definition Chroma_from_documents (documents : list Document)
    (embedding : HuggingFaceEmbeddings) (collection_name : string)
    : M World Chroma :=
  do! called (CallChromaFromDocuments collection_name documents) in
  let! w := get in
  let kept := Chroma_init collection_name (entries_of collection_name w) in
  do! modify (set_collections (<[collection_name := kept ++ documents]>)) in
  ret {| chroma_collection_name := collection_name;
         chroma_embedding_function := embedding |}.

(** [vectorstore.add_documents(documents)]: appends the documents and
    returns one id per document, in input order.  An id stands for the
    position of its entry in the collection. *)
Definition Chroma_add_documents (vs : Chroma) (documents : list Document)
    : M World (list string) :=
  do! called (CallChromaAddDocuments (chroma_collection_name vs) documents) in
  let! w := get in
  let old := entries_of (chroma_collection_name vs) w in
  do! modify (set_collections
                (<[chroma_collection_name vs := old ++ documents]>)) in
  ret (pretty <$> seq (length old) (length documents)).

(** [vectorstore.as_retriever(search_type=..., search_kwargs=...)] *)
Definition as_retriever (vs : Chroma) (search_type : string)
    (search_kwargs : gmap string Z) : VectorStoreRetriever :=
  {| retriever_vectorstore := vs;
     search_type := search_type;
     search_kwargs := search_kwargs |}.

(** What a retriever computes from the entries of its collection:
    ["similarity"] returns the [k] most similar entries; ["mmr"] fetches
    the [fetch_k] most similar entries and selects [k] of them by maximal
    marginal relevance.  [k] defaults to 4 and [fetch_k] to 20. *)
Definition retriever_results (r : VectorStoreRetriever) (query : string)
    (entries : list Document) : Res (list Document) :=
  let k := default 4%Z (search_kwargs r !! "k") in
  let fetch_k := default 20%Z (search_kwargs r !! "fetch_k") in
  if String.eqb (search_type r) "similarity" then
    Ok (similarity_search query k entries)
  else if String.eqb (search_type r) "mmr" then
    Ok (maximal_marginal_relevance query k
          (similarity_search query fetch_k entries))
  else other_search (search_type r) (search_kwargs r) query entries.

(** [retriever.invoke(query)] *)
Definition retriever_invoke (r : VectorStoreRetriever) (query : string)
    : M World (list Document) :=
  do! called (CallRetrieverInvoke r query) in
  let! w := get in
  lift_res (retriever_results r query
              (entries_of (chroma_collection_name (retriever_vectorstore r)) w)).

End Chroma.

(** ** [src/utils/embeddings.py] *)

Section Embeddings.
Context `{Libraries}.

(** [get_embeddings(model_name, model_kwargs, encode_kwargs)].  [import torch]
    succeeds in this application ([config.py] imports it when it is loaded),
    so the [ImportError] branch is not modelled; the constructor of
    [HuggingFaceEmbeddings], like the constructors of the other libraries,
    is taken to return. *)
Definition get_embeddings (model_name : option string)
    (model_kwargs : option (gmap string string))
    (encode_kwargs : option (gmap string bool)) : M World HuggingFaceEmbeddings :=
  let model_name :=
    default "sentence-transformers/paraphrase-multilingual-MiniLM-L12-v2"
            model_name in
  let model_kwargs :=
    match model_kwargs with
    | Some kw => kw
    | None =>
        let device := if torch_cuda_is_available then "cuda" else "cpu" in
        {[ "device" := device ]}
    end in
  let encode_kwargs :=
    default {[ "normalize_embeddings" := true ]} encode_kwargs in
  do! called (CallGetEmbeddings model_name) in
  ret {| model_name := model_name;
         hf_model_kwargs := model_kwargs;
         hf_encode_kwargs := encode_kwargs |}.

End Embeddings.

(** ** [src/services/document_service.py] *)

Module DocumentService.

(** The class has no attributes. *)
Inductive t : Type := __init__.

Section DocumentService.
Context `{Libraries}.

Definition load_pdf_document (file_path : string) : M World (list Document) :=
  do! called (CallPyPDFLoader file_path) in
  lift_res (PyPDFLoader_load file_path).

Definition load_html_document (file_path open_encoding : string)
    : M World (list Document) :=
  do! called (CallBSHTMLLoader file_path open_encoding) in
  lift_res (BSHTMLLoader_load file_path open_encoding).

(** The body of the [for] loop of [load_documents]: the [try] block and
    its [except Exception] handler.  It returns the list [documents] as
    the iteration leaves it. *)
Definition load_one (documents : list Document) (file_path : string)
    : M World (list Document) :=
  try_except
    (if Py.endswith file_path ".pdf" then
       let! loaded := load_pdf_document file_path in
       ret (documents ++ loaded)
     else if Py.endswith file_path ".html" then
       let! loaded := load_html_document file_path "latin-1" in
       ret (documents ++ loaded)
     else
       do! emit WARNING ("Unsupported file type: " ++ file_path) in
       ret documents)
    (λ e,
       do! emit ERROR ("Error loading file: " ++ file_path ++ ": " ++ str_exn e) in
       ret documents).

Fixpoint load_loop (file_paths : list string) (documents : list Document)
    : M World (list Document) :=
  match file_paths with
  | [] => ret documents
  | file_path :: rest =>
      let! documents := load_one documents file_path in
      load_loop rest documents
  end.

(** [load_documents(file_paths: str | list[str])] *)
Definition load_documents (file_paths : string + list string)
    : M World (list Document) :=
  let file_paths :=
    match file_paths with
    | inl single => [single]
    | inr paths => paths
    end in
  load_loop file_paths [].

Definition split_documents (documents : list Document)
    (chunk_size chunk_overlap : Z) : M World (list Document) :=
  do! called (CallTextSplitter chunk_size chunk_overlap documents) in
  ret (text_splitter_split_documents chunk_size chunk_overlap documents).

End DocumentService.
End DocumentService.

(** ** [src/services/vectorstore_service.py] *)

Module VectorStoreService.

Record t : Type := {
  collection_name : string;
  embedding_model : option string;
  model_kwargs : option (gmap string string);
  encode_kwargs : option (gmap string bool);
  _embeddings : option HuggingFaceEmbeddings;
  _vectorstore : option Chroma
}.

(** [VectorStoreService(collection_name, embedding_model, model_kwargs,
    encode_kwargs)] *)
Definition __init__ (collection_name : string) (embedding_model : option string)
    (model_kwargs : option (gmap string string))
    (encode_kwargs : option (gmap string bool)) : t :=
  {| collection_name := collection_name;
     embedding_model := embedding_model;
     model_kwargs := model_kwargs;
     encode_kwargs := encode_kwargs;
     _embeddings := None;
     _vectorstore := None |}.

Definition set__embeddings (e : HuggingFaceEmbeddings) (self : t) : t :=
  {| collection_name := collection_name self;
     embedding_model := embedding_model self;
     model_kwargs := model_kwargs self;
     encode_kwargs := encode_kwargs self;
     _embeddings := Some e;
     _vectorstore := _vectorstore self |}.

Definition set__vectorstore (vs : Chroma) (self : t) : t :=
  {| collection_name := collection_name self;
     embedding_model := embedding_model self;
     model_kwargs := model_kwargs self;
     encode_kwargs := encode_kwargs self;
     _embeddings := _embeddings self;
     _vectorstore := Some vs |}.

(** A method runs on the object and the shared world. *)
Definition Method (A : Type) : Type := M (t * World) A.

Definition self : Method t := λ s, (Ok s.1, s).
Definition update_self (f : t → t) : Method unit := λ s, (Ok tt, (f s.1, s.2)).
Definition world {A} (m : M World A) : Method A :=
  zoom snd (λ w s, (s.1, w)) m.

Section VectorStoreService.
Context `{Libraries}.

(** The [embeddings] property *)
Definition embeddings : Method HuggingFaceEmbeddings :=
  let! this := self in
  match _embeddings this with
  | Some e => ret e
  | None =>
      let! e := world (get_embeddings (embedding_model this)
                         (model_kwargs this) (encode_kwargs this)) in
      do! update_self (set__embeddings e) in
      ret e
  end.

Definition create_empty_vectorstore : Method Chroma :=
  let! this := self in
  let! embedding_function := embeddings in
  let! vs := world (Chroma_new (collection_name this) embedding_function) in
  do! update_self (set__vectorstore vs) in
  ret vs.

(** The [vectorstore] property *)
Definition vectorstore : Method Chroma :=
  let! this := self in
  match _vectorstore this with
  | Some vs => ret vs
  | None =>
      let! vs := create_empty_vectorstore in
      do! update_self (set__vectorstore vs) in
      ret vs
  end.

Definition exists_ : Method bool :=
  let! this := self in
  ret (Py.is_not_None (_vectorstore this)).

(** [[i for i, d in enumerate(documents) if not d.page_content.strip()]] *)
Definition empty_docs (documents : list Document) : list nat :=
  Py.indices (λ d, negb (Py.truthy (Py.strip (page_content d)))) documents.

Definition create_from_documents (documents : list Document) : Method Chroma :=
  let empty_docs := empty_docs documents in
  do! (if bool_decide (empty_docs ≠ [])
       then world (emit WARNING
              ("Found " ++ pretty (length empty_docs) ++
               " documents with empty content at indices: " ++
               Py.repr_list (take 10 empty_docs) ++ "..."))
       else ret tt) in
  let! this := self in
  let! embedding := embeddings in
  let! vs := world (Chroma_from_documents documents embedding
                      (collection_name this)) in
  do! update_self (set__vectorstore vs) in
  ret vs.

Definition add_documents (documents : list Document) : Method (list string) :=
  let! vs := vectorstore in
  let! result := world (Chroma_add_documents vs documents) in
  ret result.

End VectorStoreService.
End VectorStoreService.

(** ** [src/services/retrieval_service.py] *)

Module RetrievalService.

Record t : Type := { vectorstore : Chroma }.

Section RetrievalService.
Context `{Libraries}.

Definition retrieve (self : t) (query : string) (strategy : string) (k : Z)
    : M World (list Document) :=
  let! retriever :=
    if String.eqb strategy "similarity" then
      ret (as_retriever (vectorstore self) "similarity" {[ "k" := k ]})
    else if String.eqb strategy "mmr" then
      ret (as_retriever (vectorstore self) "mmr"
             (<["fetch_k" := (k * 2)%Z]> {[ "k" := k ]}))
    else
      do! emit CRITICAL ("Unknown retrieval strategy: " ++ strategy) in
      raise (ValueError ("Unknown strategy: " ++ strategy ++
                         ". Use 'similarity' or 'mmr'")) in
  let! results := retriever_invoke retriever query in
  ret results.

End RetrievalService.
End RetrievalService.

(** ** [src/chains/rag_chain.py] *)

Module rag_chain.

Definition nl : string := String (Ascii.ascii_of_nat 10) "".

Definition default_system_prompt : string :=
  "Você é um assistente de leitura de documentos de maquinas industriais." ++ nl ++
  "                            Use as seguintes informações do contexto para responder à pergunta. Se a resposta não estiver no contexto, " ++ nl ++
  "                            diga que não tem informações suficientes nos documentos fornecidos.".

(** The template, with its two placeholders filled in. *)
Definition format_template (system_prompt context question : string) : string :=
  system_prompt ++ nl ++
  nl ++
  "                    Contexto:" ++ nl ++
  "                    " ++ context ++ nl ++
  nl ++
  "                    Pergunta: " ++ question ++ nl ++
  nl ++
  "                    Resposta:".

Definition format_docs (docs : list Document) : string :=
  Py.join (nl ++ nl) (page_content <$> docs).

(** A chain built by [create_rag_chain]. *)
Record Runnable : Type := {
  chain_llm : BaseChatModel;
  chain_retriever : VectorStoreRetriever;
  chain_system_prompt : string
}.

Definition create_rag_chain (llm : BaseChatModel)
    (retriever : VectorStoreRetriever) (system_prompt : option string)
    : Runnable :=
  {| chain_llm := llm;
     chain_retriever := retriever;
     chain_system_prompt := default default_system_prompt system_prompt |}.

Section rag_chain.
Context `{Libraries}.

(** [chain.invoke(question)] for
    [{"context": retriever | format_docs, "question": RunnablePassthrough()}
     | prompt | llm | StrOutputParser()] *)
Definition invoke (chain : Runnable) (question : string) : M World string :=
  let! docs := retriever_invoke (chain_retriever chain) question in
  let context := format_docs docs in
  let prompt := format_template (chain_system_prompt chain) context question in
  do! called (CallChatModel (chain_llm chain) prompt) in
  lift_res (chat_model_invoke (chain_llm chain) prompt).

End rag_chain.
End rag_chain.

(** ** [src/models/config.py] *)

Module RAGConfig.

Record t : Type := {
  embedding_model : string;
  available_providers : gmap string (gmap string string);
  available_language_models : gmap string (list (string * string));
  model_kwargs : gmap string string;
  encode_kwargs : gmap string bool;
  chunk_size : Z;
  chunk_overlap : Z;
  retrieval_k : Z;
  retrieval_strategy : string
}.

Section RAGConfig.
Context `{Libraries}.

(** [RAGConfig()] *)
Definition __init__ : t :=
  {| embedding_model := "intfloat/multilingual-e5-large";
     available_providers :=
       {[ "groq" := {[ "name" := "Groq";
                       "key_name" := "GROQ_API_KEY";
                       "get_key_url" := "https://console.groq.com" ]};
          "gemini" := {[ "name" := "Google Gemini";
                         "key_name" := "GOOGLE_API_KEY";
                         "get_key_url" := "https://aistudio.google.com" ]} ]};
     available_language_models :=
       {[ "groq" := [ ("openai/gpt-oss-120b", "openai/gpt-oss-120b");
                      ("llama-3.1-8b-instant", "llama-3.1-8b-instant");
                      ("groq/compound", "groq/compound") ];
          "gemini" := [ ("gemini-3.0-pro-preview", "gemini-3.0-pro-preview");
                        ("gemini-3.0-flash-preview", "gemini-3.0-flash-preview");
                        ("gemini-2.5-flash", "Gemini 2.5 Flash ");
                        ("gemini-2.5-pro", "Gemini 2.5 Pro") ] ]};
     model_kwargs :=
       {[ "device" := if torch_cuda_is_available then "cuda" else "cpu" ]};
     encode_kwargs := {[ "normalize_embeddings" := true ]};
     chunk_size := 700;
     chunk_overlap := 100;
     retrieval_k := 4;
     retrieval_strategy := "similarity" |}.

End RAGConfig.
End RAGConfig.

(** ** [src/services/rag_service.py] *)

Module RAGService.

Record t : Type := {
  config : RAGConfig.t;
  session_id : string;
  _vectorstore_service : option VectorStoreService.t;
  _document_service : option DocumentService.t
}.

Definition set__vectorstore_service (v : VectorStoreService.t) (self : t) : t :=
  {| config := config self;
     session_id := session_id self;
     _vectorstore_service := Some v;
     _document_service := _document_service self |}.

Definition set__document_service (d : DocumentService.t) (self : t) : t :=
  {| config := config self;
     session_id := session_id self;
     _vectorstore_service := _vectorstore_service self;
     _document_service := Some d |}.

Definition Method (A : Type) : Type := M (t * World) A.

Definition self : Method t := λ s, (Ok s.1, s).
Definition world {A} (m : M World A) : Method A :=
  zoom snd (λ w s, (s.1, w)) m.

Section RAGService.
Context `{Libraries}.

(** [RAGService(config, session_id)]; [config or RAGConfig()] *)
Definition __init__ (config : option RAGConfig.t) (session_id : string) : t :=
  {| config := default RAGConfig.__init__ config;
     session_id := session_id;
     _vectorstore_service := None;
     _document_service := None |}.

(** The name of the collection of a session: [f"session_{self.session_id}"] *)
Definition collection_name_of (session_id : string) : string :=
  "session_" ++ session_id.

(** The object the [vectorstore_service] property returns. *)
Definition the_vectorstore_service (this : t) : VectorStoreService.t :=
  match _vectorstore_service this with
  | Some v => v
  | None =>
      VectorStoreService.__init__
        (collection_name_of (session_id this))
        (Some (RAGConfig.embedding_model (config this)))
        (Some (RAGConfig.model_kwargs (config this)))
        (Some (RAGConfig.encode_kwargs (config this)))
  end.

(** [self.vectorstore_service.m(...)]: the property creates the service on
    first use and keeps it; the method then runs on that object. *)
Definition vectorstore_service {A} (m : VectorStoreService.Method A) : Method A :=
  zoom (λ s, (the_vectorstore_service s.1, s.2))
       (λ v s, (set__vectorstore_service v.1 s.1, v.2))
       m.

(** [self.document_service.m(...)]; the methods of the document service
    touch no attribute. *)
Definition document_service {A} (m : M World A) : Method A :=
  zoom (λ s, s.2)
       (λ w s, (set__document_service
                  (default DocumentService.__init__ (_document_service s.1))
                  s.1, w))
       m.

Definition initialize_vectorstore (force_rebuild : bool) : Method unit :=
  let! rebuild :=
    if force_rebuild then ret true
    else let! e := vectorstore_service VectorStoreService.exists_ in
         ret (negb e) in
  if (rebuild : bool) then
    do! vectorstore_service VectorStoreService.create_empty_vectorstore in
    ret tt
  else
    do! vectorstore_service VectorStoreService.vectorstore in
    ret tt.

Definition add_documents (file_paths : list string) (force_rebuild : bool)
    : Method unit :=
  if force_rebuild then
    initialize_vectorstore true
  else
    let! e := vectorstore_service VectorStoreService.exists_ in
    if negb e then
      do! world (emit CRITICAL
            "Vector store does not exist. Use initialize_vectorstore() first.") in
      raise (ValueError
               "Vector store does not exist. Use initialize_vectorstore() first.")
    else
      let! this := self in
      let! new_documents :=
        document_service (DocumentService.load_documents (inr file_paths)) in
      let! splits :=
        document_service
          (DocumentService.split_documents new_documents
             (RAGConfig.chunk_size (config this))
             (RAGConfig.chunk_overlap (config this))) in
      do! vectorstore_service (VectorStoreService.add_documents splits) in
      ret tt.

Definition query_with_sources (question : string) (llm : BaseChatModel)
    : Method (string * list string) :=
  let! this := self in
  let! vectorstore := vectorstore_service VectorStoreService.vectorstore in
  let retriever :=
    as_retriever vectorstore
      (RAGConfig.retrieval_strategy (config this))
      {[ "k" := RAGConfig.retrieval_k (config this) ]} in
  let! docs := world (retriever_invoke retriever question) in
  let references := page_content <$> docs in
  let chain := rag_chain.create_rag_chain llm retriever None in
  let! answer := world (rag_chain.invoke chain question) in
  ret (answer, references).

End RAGService.
End RAGService.

(** ** [src/models/llm_factory.py] *)

Module llm_factory.

(** [os.getenv(name)] *)
Definition getenv (name : string) : M World (option string) :=
  let! w := get in ret (environ w !! name).

Definition get_llm (provider model : string) (temperature : Q)
    (api_key : option string) : M World BaseChatModel :=
  if String.eqb provider "groq" then
    let! env_key := getenv "GROQ_API_KEY" in
    match Py.or_ api_key env_key with
    | Some (String c key') =>
        ret (ChatGroq model temperature (String c key'))
    | _ =>
        raise (ValueError
          "Groq API key is required. Pass api_key or set GROQ_API_KEY env var.")
    end
  else if String.eqb provider "gemini" then
    let! gemini_key := getenv "GEMINI_API_KEY" in
    let! google_key := getenv "GOOGLE_API_KEY" in
    match Py.or_ (Py.or_ api_key gemini_key) google_key with
    | Some (String c key') =>
        ret (ChatGoogleGenerativeAI model temperature (String c key'))
    | _ =>
        raise (ValueError
          "Gemini API key is required. Pass api_key or set GEMINI_API_KEY env var.")
    end
  else if String.eqb provider "ollama" then
    ret (ChatOllama model temperature)
  else
    do! emit CRITICAL ("Unknown LLM provider: " ++ provider) in
    raise (ValueError ("Unknown provider: " ++ provider)).

End llm_factory.

(** ** [main.py] *)

Module main.

(** The module-level state: the registry [_sessions] and the shared world. *)
Record App : Type := {
  _sessions : gmap string RAGService.t;
  world_of : World
}.

(** The application as the process starts it. *)
Definition App0 (env : gmap string string) : App :=
  {| _sessions := ∅; world_of := World0 env |}.

Record QuestionRequest : Type := {
  session_id : string;
  question : string;
  provider : string;
  model : string;
  api_key : string;
  temperature : Q
}.

Record QuestionResponse : Type := {
  answer : string;
  references : list string
}.

Record UploadResponse : Type := {
  message : string;
  documents_indexed : nat;
  total_chunks : nat
}.

Definition world {A} (m : M World A) : M App A :=
  zoom world_of (λ w app, {| _sessions := _sessions app; world_of := w |}) m.

(** [service.m(...)] for the service registered under [session_id]: the
    registry holds a reference, so what the method changes stays in it.
    The handlers use it on the key [get_rag_service] has just returned,
    which is registered; [_sessions[session_id]] on a missing key would be
    a [KeyError]. *)
Definition service {A} (session_id : string) (m : RAGService.Method A) : M App A :=
  λ app,
    match _sessions app !! session_id with
    | None => (Raise (KeyError session_id), app)
    | Some svc =>
        let '(r, (svc', w')) := m (svc, world_of app) in
        (r, {| _sessions := <[session_id := svc']> (_sessions app);
               world_of := w' |})
    end.

Section main.
Context `{Libraries}.

(** [get_rag_service(session_id)]; the service it returns is referred to
    by its key in the registry. *)
Definition get_rag_service (session_id : string) : M App string :=
  let! app := get in
  match _sessions app !! session_id with
  | Some _ => ret session_id
  | None =>
      let config := RAGConfig.__init__ in
      let new_service := RAGService.__init__ (Some config) session_id in
      λ app,
        let '(r, (svc', w')) :=
          RAGService.initialize_vectorstore false (new_service, world_of app) in
        match r with
        | Ok _ =>
            (Ok session_id,
             {| _sessions := <[session_id := svc']> (_sessions app);
                world_of := w' |})
        | Raise e =>
            (Raise e, {| _sessions := _sessions app; world_of := w' |})
        end
  end.

Definition delete_session (session_id : string) : M App string :=
  let! app := get in
  match _sessions app !! session_id with
  | Some _ =>
      do! put {| _sessions := delete session_id (_sessions app);
                 world_of := world_of app |} in
      ret ("Session " ++ session_id ++ " deleted")%string
  | None => raise (HTTPException 404 "Session not found")
  end.

(** [upload_files], from [if not saved_files] on: [saved_files] are the
    paths under which the handler has stored the uploaded files. *)
Definition upload_files (session_id : string) (saved_files : list string)
    : M App UploadResponse :=
  match saved_files with
  | [] => raise (HTTPException 400 "No valid PDF or HTML files provided")
  | _ =>
      try_except
        (let! sid := get_rag_service session_id in
         let! this := service sid RAGService.self in
         let! documents :=
           service sid (RAGService.document_service
                          (DocumentService.load_documents (inr saved_files))) in
         let! splits :=
           service sid (RAGService.document_service
                          (DocumentService.split_documents documents
                             (RAGConfig.chunk_size (RAGService.config this))
                             (RAGConfig.chunk_overlap (RAGService.config this)))) in
         do! service sid (RAGService.vectorstore_service
                            (VectorStoreService.add_documents splits)) in
         ret {| message := "Documents processed successfully";
                documents_indexed := length documents;
                total_chunks := length splits |})
        (λ e,
           do! world (emit ERROR ("Failed to process documents: " ++ str_exn e)) in
           raise (HTTPException 500 ("Failed to process documents: " ++ str_exn e)))
  end.

Definition ask_question (request : QuestionRequest) : M App QuestionResponse :=
  try_except
    (let! sid := get_rag_service (session_id request) in
     let! llm := world (llm_factory.get_llm (provider request) (model request)
                          (temperature request) (Some (api_key request))) in
     let! res := service sid
                   (RAGService.query_with_sources (question request) llm) in
     ret {| answer := res.1; references := res.2 |})
    (λ e,
       match e with
       | ValueError msg =>
           do! world (emit ERROR ("Configuration error: " ++ msg)) in
           raise (HTTPException 400 msg)
       | _ =>
           do! world (emit ERROR ("Query failed: " ++ str_exn e)) in
           raise (HTTPException 500 (str_exn e))
       end).

End main.
End main.

(** ** Vocabulary of the properties *)

(** The providers [get_llm] knows, and for a hosted provider the
    environment variables it reads a credential from. *)
Definition supported_providers : list string := ["groq"; "gemini"; "ollama"].

Definition credential_variables (provider : string) : list string :=
  if String.eqb provider "groq" then ["GROQ_API_KEY"]
  else if String.eqb provider "gemini" then ["GEMINI_API_KEY"; "GOOGLE_API_KEY"]
  else [].

(** Whether the explicit credential or one of the provider's environment
    variables supplies a (non-empty) credential. *)
Definition supplies_credential (provider : string) (api_key : option string)
    (env : gmap string string) : bool :=
  Py.truthy_opt api_key ||
  existsb (λ v, Py.truthy_opt (env !! v)) (credential_variables provider).

Section Loading.
Context `{Libraries}.

(** What the loaders make of one file: [None] when its extension is not
    supported, otherwise the outcome of the extraction. *)
Definition extraction (file_path : string) : option (Res (list Document)) :=
  if Py.endswith file_path ".pdf" then Some (PyPDFLoader_load file_path)
  else if Py.endswith file_path ".html"
       then Some (BSHTMLLoader_load file_path "latin-1")
  else None.

(** The Documents a file contributes: those of a successful extraction. *)
Definition loaded_from (file_path : string) : list Document :=
  match extraction file_path with
  | Some (Ok documents) => documents
  | _ => []
  end.

(** What is logged for a file that contributes nothing. *)
Definition skipped_record (file_path : string) : list LogRecord :=
  match extraction file_path with
  | Some (Ok _) => []
  | Some (Raise e) =>
      [ {| levelname := ERROR;
           message := "Error loading file: " ++ file_path ++ ": " ++ str_exn e |} ]
  | None =>
      [ {| levelname := WARNING;
           message := "Unsupported file type: " ++ file_path |} ]
  end.

End Loading.

(** The warning [create_from_documents] logs for its input, if any. *)
Definition empty_content_warning (documents : list Document) : list LogRecord :=
  let positions := VectorStoreService.empty_docs documents in
  match positions with
  | [] => []
  | _ =>
      [ {| levelname := WARNING;
           message := "Found " ++ pretty (length positions) ++
                      " documents with empty content at indices: " ++
                      Py.repr_list (take 10 positions) ++ "..." |} ]
  end.

(** The calls of the ingestion pipeline: loading, splitting, indexing. *)
Definition is_ingestion_call (c : Call) : bool :=
  match c with
  | CallPyPDFLoader _ | CallBSHTMLLoader _ _ | CallTextSplitter _ _ _
  | CallChromaFromDocuments _ _ | CallChromaAddDocuments _ _ => true
  | _ => false
  end.

Definition is_retriever_call (c : Call) : bool :=
  match c with
  | CallRetrieverInvoke _ _ => true
  | _ => false
  end.

(** The retrieval calls of a trace, in order. *)
Definition retriever_calls (t : list Call) : list Call :=
  List.filter is_retriever_call t.


(** The public surface of a [VectorStoreService], as a caller drives it. *)
Inductive vs_call : Type :=
  | call_embeddings
  | call_vectorstore
  | call_exists
  | call_create_empty_vectorstore
  | call_create_from_documents (documents : list Document)
  | call_add_documents (documents : list Document).

(** The calls that initialize the collection: [create_empty_vectorstore],
    the document-creating calls, and the [vectorstore] property. *)
Definition initializes (c : vs_call) : bool :=
  match c with
  | call_embeddings | call_exists => false
  | _ => true
  end.

Section Driving.
Context `{Libraries}.

Definition run_call (c : vs_call) : VectorStoreService.Method unit :=
  match c with
  | call_embeddings => do! VectorStoreService.embeddings in ret tt
  | call_vectorstore => do! VectorStoreService.vectorstore in ret tt
  | call_exists => do! VectorStoreService.exists_ in ret tt
  | call_create_empty_vectorstore =>
      do! VectorStoreService.create_empty_vectorstore in ret tt
  | call_create_from_documents documents =>
      do! VectorStoreService.create_from_documents documents in ret tt
  | call_add_documents documents =>
      do! VectorStoreService.add_documents documents in ret tt
  end.

Definition run_calls (cs : list vs_call) : VectorStoreService.Method unit :=
  for_each cs run_call.

End Driving.

(** *** Sessions: what a request may touch

    A request that addresses session [A] may change the registry at key [A]
    and the collection named after [A], and nothing else of what retrieval
    reads.  The relations below say so level by level, together with the
    naming invariant that makes it true: a service registered under [sid]
    carries [sid], and its vector store service and handle carry the
    collection name derived from [sid]. *)

Definition preserves {S A} (R : S → S → Prop) (m : M S A) : Prop :=
  ∀ s, R s (m s).2.

Definition world_frame (n : string) (w w' : World) : Prop :=
  environ w' = environ w ∧
  ∀ m, m ≠ n → collections w' !! m = collections w !! m.

Definition vs_inv (n : string) (v : VectorStoreService.t) : Prop :=
  VectorStoreService.collection_name v = n ∧
  ∀ vs, VectorStoreService._vectorstore v = Some vs → chroma_collection_name vs = n.

Definition vs_step (n : string) (s s' : VectorStoreService.t * World) : Prop :=
  vs_inv n s.1 → vs_inv n s'.1 ∧ world_frame n s.2 s'.2.

Definition rag_inv (sid : string) (svc : RAGService.t) : Prop :=
  RAGService.session_id svc = sid ∧
  ∀ v, RAGService._vectorstore_service svc = Some v →
       vs_inv (RAGService.collection_name_of sid) v.

Definition rag_step (sid : string) (s s' : RAGService.t * World) : Prop :=
  rag_inv sid s.1 →
  rag_inv sid s'.1 ∧ world_frame (RAGService.collection_name_of sid) s.2 s'.2.

Definition app_inv (app : main.App) : Prop :=
  ∀ sid svc, main._sessions app !! sid = Some svc → rag_inv sid svc.

Definition app_step (sid : string) (app app' : main.App) : Prop :=
  app_inv app →
  app_inv app' ∧
  (∀ other, other ≠ sid → main._sessions app' !! other = main._sessions app !! other) ∧
  world_frame (RAGService.collection_name_of sid) (main.world_of app) (main.world_of app').

(** Two states look the same to a session when they agree on what its
    requests read: the environment, the entries of its collection, and the
    service registered for it. *)

Definition respects {S A} (E : S → S → Prop) (m : M S A) : Prop :=
  ∀ s1 s2, E s1 s2 → (m s1).1 = (m s2).1 ∧ E (m s1).2 (m s2).2.

Definition world_view (n : string) (w1 w2 : World) : Prop :=
  environ w1 = environ w2 ∧ collections w1 !! n = collections w2 !! n.

Definition vs_view (n : string) (s1 s2 : VectorStoreService.t * World) : Prop :=
  s1.1 = s2.1 ∧ vs_inv n s1.1 ∧ world_view n s1.2 s2.2.

Definition rag_view (sid : string) (s1 s2 : RAGService.t * World) : Prop :=
  s1.1 = s2.1 ∧ rag_inv sid s1.1 ∧
  world_view (RAGService.collection_name_of sid) s1.2 s2.2.

Definition app_view (sid : string) (a1 a2 : main.App) : Prop :=
  app_inv a1 ∧ app_inv a2 ∧
  main._sessions a1 !! sid = main._sessions a2 !! sid ∧
  world_view (RAGService.collection_name_of sid) (main.world_of a1) (main.world_of a2).

(** The requests the application serves, and the session each addresses. *)
Inductive request : Type :=
  | Upload (session_id : string) (saved_files : list string)
  | Ask (req : main.QuestionRequest)
  | Delete (session_id : string).

Definition addressed (r : request) : string :=
  match r with
  | Upload session_id _ => session_id
  | Ask req => main.session_id req
  | Delete session_id => session_id
  end.

Section Serving.
Context `{Libraries}.

(** The application after a request; a handler that raises answers with
    an HTTP error and the process goes on. *)
Definition serve (app : main.App) (r : request) : main.App :=
  match r with
  | Upload session_id saved_files => (main.upload_files session_id saved_files app).2
  | Ask req => (main.ask_question req app).2
  | Delete session_id => (main.delete_session session_id app).2
  end.

Definition serve_all (rs : list request) (app : main.App) : main.App :=
  foldl serve app rs.

(** A retrieval against a session: the answer and the references that
    [query_with_sources] returns for the service of that session. *)
Definition retrieval_against (session_id question : string) (llm : BaseChatModel)
    : M main.App (string * list string) :=
  let! sid := main.get_rag_service session_id in
  main.service sid (RAGService.query_with_sources question llm).

End Serving.

(** ** More of the repository *)

(** *** The file system *)

(** A [pathlib.Path] that [glob] yields: the two attributes the code reads,
    [str(path)] and [path.name]. *)
Record Path : Type := {
  path_str : string;
  path_name : string
}.

(** An uploaded file of a request: its [filename] (which may be missing or
    empty) and what [await file.read()] gives. *)
Record UploadFile : Type := {
  filename : option string;
  read : Res string
}.

(** The file system calls of [main.py] and of
    [load_documents_from_directory]. *)
Class FileSystem : Type := {
  (** [str(folder / name)] *)
  path_join : string → string → string;
  (** [with open(path, "wb") as f: f.write(content)] *)
  write_bytes : string → string → Res unit;
  (** [Path(directory).glob(pattern)], in the order it yields *)
  glob : string → string → list Path
}.

(** *** [load_documents_from_directory] of [src/services/document_service.py] *)

Section Directory.
Context `{Libraries} `{FileSystem}.

(** One iteration of either loop: the [try] block and its handler. *)
Definition load_listed (load : string → M World (list Document))
    (documents : list Document) (file : Path) : M World (list Document) :=
  try_except
    (let! loaded := load (path_str file) in
     ret (documents ++ loaded))
    (λ e,
       do! emit WARNING ("Error loading " ++ path_name file ++ ": " ++ str_exn e) in
       ret documents).

Fixpoint load_listed_loop (load : string → M World (list Document))
    (files : list Path) (documents : list Document) : M World (list Document) :=
  match files with
  | [] => ret documents
  | file :: rest =>
      let! documents := load_listed load documents file in
      load_listed_loop load rest documents
  end.

Definition load_documents_from_directory (directory : string)
    : M World (list Document) :=
  let! documents :=
    load_listed_loop DocumentService.load_pdf_document
      (glob directory "*.pdf") [] in
  let! documents :=
    load_listed_loop (λ p, DocumentService.load_html_document p "latin-1")
      (glob directory "*.html") documents in
  ret documents.

End Directory.

(** *** The rest of [main.py] *)

Module main_endpoints.

Definition UPLOAD_DIR : string := "data/upload".

Section main_endpoints.
Context `{Libraries} `{FileSystem}.

(** [health_check()] *)
Definition health_check : gmap string string := {[ "status" := "healthy" ]}.

(** [get_available_models()] *)
Definition get_available_models : gmap string (list (string * string)) :=
  RAGConfig.available_language_models RAGConfig.__init__.

(** One iteration of the [for file in files] loop of [upload_files]; it
    returns the list [saved_files] as the iteration leaves it. *)
Definition save_one (upload_folder : string) (saved_files : list string)
    (file : UploadFile) : M World (list string) :=
  match filename file with
  | Some (String c rest) =>
      let filename := String c rest in
      if negb (Py.endswith filename ".pdf" || Py.endswith filename ".html") then
        do! emit WARNING ("Skipping unsupported file: " ++ filename) in
        ret saved_files
      else
        let file_path := path_join upload_folder filename in
        try_except
          (let! content := lift_res (read file) in
           do! lift_res (write_bytes file_path content) in
           ret (saved_files ++ [file_path]))
          (λ e,
             do! emit ERROR ("Failed to save " ++ filename ++ ": " ++ str_exn e) in
             raise (HTTPException 500 ("Failed to save " ++ filename)))
  | _ =>
      do! emit WARNING "Skipping file with no filename" in
      ret saved_files
  end.

Fixpoint save_loop (upload_folder : string) (files : list UploadFile)
    (saved_files : list string) : M World (list string) :=
  match files with
  | [] => ret saved_files
  | file :: rest =>
      let! saved_files := save_one upload_folder saved_files file in
      save_loop upload_folder rest saved_files
  end.

(** [upload_files(session_id, files)], whole: [upload_id] is the
    [str(uuid.uuid4())] the handler draws; creating the upload folder is
    taken to succeed. *)
Definition upload_files (upload_id session_id : string) (files : list UploadFile)
    : M main.App main.UploadResponse :=
  let upload_folder := path_join UPLOAD_DIR upload_id in
  let! saved_files := main.world (save_loop upload_folder files []) in
  main.upload_files session_id saved_files.

End main_endpoints.
End main_endpoints.

(** *** Vocabulary of the further properties *)

(** A relation that carries a property of states forward. *)
Definition keeps {S} (P : S → Prop) (s s' : S) : Prop := P s → P s'.

(** A vector store service whose store exists; an orchestrator whose vector
    store service has been created and whose store exists; a registry all
    of whose sessions are in that state. *)
Definition vs_ready (v : VectorStoreService.t) : Prop :=
  is_Some (VectorStoreService._vectorstore v).

Definition rag_ready (svc : RAGService.t) : Prop :=
  ∃ v, RAGService._vectorstore_service svc = Some v ∧ vs_ready v.

Section Standard.
Context `{Libraries}.

(** An orchestrator as [get_rag_service] makes them: ready, and configured
    with [RAGConfig()]. *)
Definition rag_standard (svc : RAGService.t) : Prop :=
  rag_ready svc ∧ RAGService.config svc = RAGConfig.__init__.

Definition app_standard (app : main.App) : Prop :=
  ∀ sid svc, main._sessions app !! sid = Some svc → rag_standard svc.


End Standard.

(** The HTTP error [ask_question] answers an exception with: its
    [except ValueError] and [except Exception] clauses. *)
Definition http_error (e : exn) : exn :=
  match e with
  | ValueError msg => HTTPException 400 msg
  | _ => HTTPException 500 (str_exn e)
  end.

Definition is_get_embeddings (c : Call) : bool :=
  match c with
  | CallGetEmbeddings _ => true
  | _ => false
  end.

(** How many times the embedding model has been constructed. *)
Definition embeddings_loaded (t : list Call) : nat :=
  length (List.filter is_get_embeddings t).

(** The loader call [load_documents] makes for a path, if any. *)
Definition loader_call (file_path : string) : list Call :=
  if Py.endswith file_path ".pdf" then [CallPyPDFLoader file_path]
  else if Py.endswith file_path ".html" then [CallBSHTMLLoader file_path "latin-1"]
  else [].

(** Whether the upload loop tries to save a file: it has a non-empty name
    that ends in ".pdf" or ".html". *)
Definition accepted_name (file : UploadFile) : option string :=
  match filename file with
  | Some (String c rest) =>
      if Py.endswith (String c rest) ".pdf" || Py.endswith (String c rest) ".html"
      then Some (String c rest) else None
  | _ => None
  end.

(** The Documents a listing contributes through a loader: those of the
    files the loader reads, in the order of the listing; and the warnings
    logged for the files it does not read. *)
Definition listed_documents (loader : string → Res (list Document))
    (files : list Path) : list Document :=
  concat ((λ file, match loader (path_str file) with
                   | Ok documents => documents
                   | Raise _ => []
                   end) <$> files).

Definition listed_warnings (loader : string → Res (list Document))
    (files : list Path) : list LogRecord :=
  concat ((λ file, match loader (path_str file) with
                   | Ok _ => []
                   | Raise e =>
                       [ {| levelname := WARNING;
                            message := "Error loading " ++ path_name file ++ ": "
                                       ++ str_exn e |} ]
                   end) <$> files).

Section Saving.
Context `{FileSystem}.

(** What reading an uploaded file and writing it under a path gives. *)
Definition save_outcome (file_path : string) (file : UploadFile) : Res unit :=
  match read file with
  | Ok content => write_bytes file_path content
  | Raise e => Raise e
  end.

(** The paths the upload loop saves under: one per accepted file, in input
    order. *)
Definition saved_paths (upload_folder : string) (files : list UploadFile)
    : list string :=
  omap (λ file, path_join upload_folder <$> accepted_name file) files.

End Saving.

(** A concrete file system, for running the model: paths are joined with a
    slash, a file named "full.pdf" cannot be written, and the directory
    "docs" lists two PDFs and one HTML file. *)
Definition sample_file_system : FileSystem :=
  {| path_join := λ folder name, (folder ++ "/" ++ name)%string;
     write_bytes := λ file_path _,
       if Py.endswith file_path "full.pdf"
       then Raise (Exception "No space left on device")
       else Ok tt;
     glob := λ directory pattern,
       if String.eqb directory "docs" then
         if String.eqb pattern "*.pdf" then
           [ {| path_str := "docs/a.pdf"; path_name := "a.pdf" |};
             {| path_str := "docs/corrupt.pdf"; path_name := "corrupt.pdf" |} ]
         else if String.eqb pattern "*.html" then
           [ {| path_str := "docs/b.html"; path_name := "b.html" |} ]
         else []
       else [] |}.

(** A concrete set of collaborators, for running the model: a PDF whose path
    mentions "corrupt" cannot be read, any other file has one page holding
    its own path; the splitter keeps documents whole; searches return the
    first entries; a store constructed for a collection finds the entries
    the collection holds; the chat model echoes a fixed answer. *)
Definition sample_libraries : Libraries :=
  {| PyPDFLoader_load := λ file_path,
       if Py.contains "corrupt" file_path
       then Raise (Exception "EOF marker not found")
       else Ok [ {| page_content := file_path; metadata := {[ "page" := "0" ]} |} ];
     BSHTMLLoader_load := λ file_path _,
       Ok [ {| page_content := file_path; metadata := ∅ |} ];
     text_splitter_split_documents := λ _ _ documents, documents;
     similarity_search := λ _ n entries, take (Z.to_nat n) entries;
     maximal_marginal_relevance := λ _ k pool, take (Z.to_nat k) pool;
     other_search := λ search_type _ _ _,
       Raise (ValueError ("search_type of " ++ search_type ++ " not allowed."));
     Chroma_init := λ _ entries, entries;
     chat_model_invoke := λ _ _, Ok "answer";
     torch_cuda_is_available := false |}.

(** Two orchestrators, for running the model: session "A" after
    [initialize_vectorstore()], and the same after one PDF has been
    added. *)
Definition sample_ready : RAGService.t * World :=
  (@RAGService.initialize_vectorstore sample_libraries false
     (@RAGService.__init__ sample_libraries None "A", World0 ∅)).2.


(** ** Properties *)

Lemma prefix_app (s t : string) : String.prefix s (s ++ t) = true.
Proof.
  induction s as [|c s IH]; simpl.
  - by destruct t.
  - destruct (Ascii.ascii_dec c c); [done | congruence].
Qed.

Lemma contains_prefix (sub s : string) :
  String.prefix sub s = true → Py.contains sub s = true.
Proof. intros Hp. destruct s; cbn [Py.contains]; rewrite Hp; done. Qed.

Lemma contains_app (sub a b : string) : Py.contains sub (a ++ sub ++ b) = true.
Proof.
  induction a as [|c a IH].
  - change (Py.contains sub (sub ++ b) = true). apply contains_prefix, prefix_app.
  - change (String.prefix sub (String c (a ++ sub ++ b)) ||
            Py.contains sub (a ++ sub ++ b) = true).
    rewrite IH. apply orb_true_r.
Qed.

Lemma append_empty_r (s : string) : (s ++ "")%string = s.
Proof.
  induction s as [|c s IH]; [done|].
  change (String c (s ++ "") = String c s). by f_equal.
Qed.

Lemma contains_suffix (sub a : string) : Py.contains sub (a ++ sub) = true.
Proof. rewrite <- (append_empty_r sub) at 2. apply contains_app. Qed.

Lemma contains_skip (sub a s : string) :
  Py.contains sub s = true → Py.contains sub (a ++ s) = true.
Proof.
  intros Hs. induction a as [|c a IH]; [done|].
  change (String.prefix sub (String c (a ++ s)) || Py.contains sub (a ++ s) = true).
  rewrite IH. apply orb_true_r.
Qed.

Lemma eqb_neq_false (s t : string) : s ≠ t → String.eqb s t = false.
Proof. intros. by apply String.eqb_neq. Qed.

Lemma bind_Ok {S A B} (m : M S A) (k : A → M S B) (s s' : S) (a : A) :
  m s = (Ok a, s') → bind m k s = k a s'.
Proof. intros E. unfold bind. by rewrite E. Qed.



(** *** Composing computations that respect a relation *)

Section Preserves.
Context {S : Type} (R : S → S → Prop) `{!Reflexive R} `{!Transitive R}.

Lemma preserves_ret {A} (a : A) : preserves R (ret a).
Proof. intros s. reflexivity. Qed.

Lemma preserves_raise {A} (e : exn) : preserves R (raise (A := A) e).
Proof. intros s. reflexivity. Qed.

Lemma preserves_get : preserves R get.
Proof. intros s. reflexivity. Qed.

Lemma preserves_lift_res {A} (r : Res A) : preserves R (lift_res r).
Proof. intros s. reflexivity. Qed.

Lemma preserves_bind {A B} (m : M S A) (k : A → M S B) :
  preserves R m → (∀ a, preserves R (k a)) → preserves R (bind m k).
Proof.
  intros Hm Hk s. unfold bind. specialize (Hm s).
  destruct (m s) as [[a|e] s1]; cbn [snd] in *; [|done].
  etrans; [exact Hm | apply Hk].
Qed.

(** The continuation may rely on what the first computation returns. *)
Lemma preserves_bind_returning {A B} (Q : A → Prop) (m : M S A) (k : A → M S B) :
  preserves R m → (∀ s a, (m s).1 = Ok a → Q a) →
  (∀ a, Q a → preserves R (k a)) → preserves R (bind m k).
Proof.
  intros Hm HQ Hk s. unfold bind. specialize (Hm s). specialize (HQ s).
  destruct (m s) as [[a|e] s1]; cbn [fst snd] in *; [|done].
  etrans; [exact Hm | by apply Hk, HQ].
Qed.

Lemma preserves_try_except {A} (m : M S A) (h : exn → M S A) :
  preserves R m → (∀ e, preserves R (h e)) → preserves R (try_except m h).
Proof.
  intros Hm Hh s. unfold try_except. specialize (Hm s).
  destruct (m s) as [[a|e] s1]; cbn [snd] in *; [done|].
  etrans; [exact Hm | apply Hh].
Qed.

End Preserves.

Lemma preserves_zoom {S T A} (R : T → T → Prop) (R' : S → S → Prop)
    (proj : S → T) (upd : T → S → S) (m : M T A) :
  (∀ s t, R (proj s) t → R' s (upd t s)) →
  preserves R m → preserves R' (zoom proj upd m).
Proof.
  intros Hup Hm s. unfold zoom. specialize (Hm (proj s)).
  destruct (m (proj s)) as [r t]. by apply Hup.
Qed.

Section Respects.
Context {S : Type} (E : S → S → Prop).

Lemma respects_ret {A} (a : A) : respects E (ret a).
Proof. by intros s1 s2 HE. Qed.

Lemma respects_raise {A} (e : exn) : respects E (raise (A := A) e).
Proof. by intros s1 s2 HE. Qed.

Lemma respects_lift_res {A} (r : Res A) : respects E (lift_res r).
Proof. by intros s1 s2 HE. Qed.

(** The continuation may rely on what the first computation returns. *)
Lemma respects_bind_returning {A B} (Q : A → Prop) (m : M S A) (k : A → M S B) :
  respects E m → (∀ s1 s2 a, E s1 s2 → (m s1).1 = Ok a → Q a) →
  (∀ a, Q a → respects E (k a)) → respects E (bind m k).
Proof.
  intros Hm HQ Hk s1 s2 HE. unfold bind.
  destruct (Hm s1 s2 HE) as [Hr HE']. specialize (HQ s1 s2).
  destruct (m s1) as [[a|e] s1'], (m s2) as [r2 s2']; cbn [fst snd] in *; subst r2.
  - apply Hk; [by eapply HQ | done].
  - done.
Qed.

Lemma respects_bind {A B} (m : M S A) (k : A → M S B) :
  respects E m → (∀ a, respects E (k a)) → respects E (bind m k).
Proof.
  intros Hm Hk. apply respects_bind_returning with (Q := λ _, True); auto.
Qed.

Lemma respects_try_except {A} (m : M S A) (h : exn → M S A) :
  respects E m → (∀ e, respects E (h e)) → respects E (try_except m h).
Proof.
  intros Hm Hh s1 s2 HE. unfold try_except.
  destruct (Hm s1 s2 HE) as [Hr HE'].
  destruct (m s1) as [[a|e] s1'], (m s2) as [r2 s2']; cbn [fst snd] in *; subst r2.
  - done.
  - by apply Hh.
Qed.

End Respects.

Lemma respects_zoom {S T A} (E : T → T → Prop) (E' : S → S → Prop)
    (proj : S → T) (upd : T → S → S) (m : M T A) :
  (∀ s1 s2, E' s1 s2 → E (proj s1) (proj s2)) →
  (∀ s1 s2 t1 t2, E' s1 s2 → E t1 t2 → E' (upd t1 s1) (upd t2 s2)) →
  respects E m → respects E' (zoom proj upd m).
Proof.
  intros Hproj Hupd Hm s1 s2 HE. unfold zoom.
  destruct (Hm _ _ (Hproj _ _ HE)) as [Hr Ht].
  destruct (m (proj s1)) as [r1 t1], (m (proj s2)) as [r2 t2]. cbn [fst snd] in *.
  split; [done | by apply Hupd].
Qed.

Section Properties.
Context `{Libraries}.

(** C9. [get_llm] fails with "Unknown provider: <provider>" for every
    provider outside the supported set; for a hosted provider (groq,
    gemini) it fails with the provider's "API key is required" error when
    neither the explicit credential nor the provider's environment
    variables supply one; the local provider (ollama) needs no
    credential; in every other case it returns a model instance. *)
Theorem get_llm_resolution (provider model : string) (temperature : Q)
    (api_key : option string) (w : World) :
  let r := (llm_factory.get_llm provider model temperature api_key w).1 in
  (provider ∉ supported_providers →
     r = Raise (ValueError ("Unknown provider: " ++ provider)) ∧
     Py.contains provider ("Unknown provider: " ++ provider) = true) ∧
  (provider = "groq" →
     supplies_credential provider api_key (environ w) = false →
     r = Raise (ValueError
       "Groq API key is required. Pass api_key or set GROQ_API_KEY env var.")) ∧
  (provider = "gemini" →
     supplies_credential provider api_key (environ w) = false →
     r = Raise (ValueError
       "Gemini API key is required. Pass api_key or set GEMINI_API_KEY env var.")) ∧
  (provider = "ollama" → r = Ok (ChatOllama model temperature)) ∧
  (provider ∈ supported_providers →
     supplies_credential provider api_key (environ w) = true →
     is_ok r = true).
Proof.
  cbv zeta. split; [|split; [|split; [|split]]].
  - intros Hp. unfold supported_providers in Hp. split.
    + unfold llm_factory.get_llm.
      rewrite !eqb_neq_false by (intros ->; apply Hp; set_solver).
      reflexivity.
    + apply contains_suffix.
  - intros -> Hc. unfold supplies_credential, llm_factory.get_llm in *. simpl in *.
    unfold bind, llm_factory.getenv, get, ret, Py.or_ in *. simpl in *.
    destruct api_key as [[|c k]|]; simpl in *; try done;
      destruct (environ w !! "GROQ_API_KEY") as [[|c' k']|]; simpl in *; done.
  - intros -> Hc. unfold supplies_credential, llm_factory.get_llm in *. simpl in *.
    unfold bind, llm_factory.getenv, get, ret, Py.or_ in *. simpl in *.
    destruct api_key as [[|c k]|]; simpl in *; try done;
      destruct (environ w !! "GEMINI_API_KEY") as [[|c' k']|]; simpl in *; try done;
      destruct (environ w !! "GOOGLE_API_KEY") as [[|c'' k'']|]; simpl in *; done.
  - intros ->. reflexivity.
  - intros Hp Hc. unfold supported_providers in Hp.
    apply elem_of_cons in Hp as [->|Hp]; [|apply elem_of_cons in Hp as [->|Hp]];
      [| |apply list_elem_of_singleton in Hp as ->; reflexivity];
      unfold supplies_credential, llm_factory.get_llm in *; simpl in *;
      unfold bind, llm_factory.getenv, get, ret, Py.or_ in *; simpl in *.
    + destruct api_key as [[|c k]|]; simpl in *; try done;
        destruct (environ w !! "GROQ_API_KEY") as [[|c' k']|]; simpl in *; done.
    + destruct api_key as [[|c k]|]; simpl in *; try done;
        destruct (environ w !! "GEMINI_API_KEY") as [[|c' k']|]; simpl in *; try done;
        destruct (environ w !! "GOOGLE_API_KEY") as [[|c'' k'']|]; simpl in *; done.
Qed.

(** C5. [retrieve] with a strategy other than "similarity" and "mmr"
    raises a [ValueError] whose message names the offending value and the
    two valid options, and calls no collaborator before it fails: the
    trace and the collections are as they were. *)
Theorem retrieve_unknown_strategy (self : RetrievalService.t)
    (query strategy : string) (k : Z) (w : World) :
  strategy ≠ "similarity" → strategy ≠ "mmr" →
  let msg := ("Unknown strategy: " ++ strategy ++ ". Use 'similarity' or 'mmr'")%string in
  let r := RetrievalService.retrieve self query strategy k w in
  r.1 = Raise (ValueError msg) ∧
  trace r.2 = trace w ∧
  collections r.2 = collections w ∧
  Py.contains strategy msg = true ∧
  Py.contains "'similarity'" msg = true ∧
  Py.contains "'mmr'" msg = true.
Proof.
  intros Hs Hm. cbv zeta. unfold RetrievalService.retrieve.
  rewrite !eqb_neq_false by done.
  repeat split.
  - apply contains_skip, contains_prefix, prefix_app.
  - do 2 apply contains_skip.
    apply (contains_app "'similarity'" ". Use " " or 'mmr'").
  - do 2 apply contains_skip.
    apply (contains_app "'mmr'" ". Use 'similarity' or " "").
Qed.

Lemma load_one_spec (documents : list Document) (file_path : string) (w : World) :
  let r := DocumentService.load_one documents file_path w in
  r.1 = Ok (documents ++ loaded_from file_path) ∧
  log r.2 = log w ++ skipped_record file_path ∧
  collections r.2 = collections w ∧
  environ r.2 = environ w.
Proof.
  cbv zeta. unfold DocumentService.load_one, loaded_from, skipped_record, extraction,
    try_except, DocumentService.load_pdf_document,
    DocumentService.load_html_document, bind, called, emit, modify, lift_res, ret.
  destruct (Py.endswith file_path ".pdf").
  - destruct (PyPDFLoader_load file_path); cbn;
      rewrite ?app_nil_r; done.
  - destruct (Py.endswith file_path ".html").
    + destruct (BSHTMLLoader_load file_path "latin-1"); cbn;
        rewrite ?app_nil_r; done.
    + cbn. rewrite ?app_nil_r. done.
Qed.

Lemma load_loop_spec (file_paths : list string) :
  ∀ (documents : list Document) (w : World),
    let r := DocumentService.load_loop file_paths documents w in
    r.1 = Ok (documents ++ concat (loaded_from <$> file_paths)) ∧
    log r.2 = log w ++ concat (skipped_record <$> file_paths) ∧
    collections r.2 = collections w ∧
    environ r.2 = environ w.
Proof.
  induction file_paths as [|file_path rest IH]; intros documents w; cbv zeta.
  - cbn. rewrite !app_nil_r. done.
  - cbn [DocumentService.load_loop].
    pose proof (load_one_spec documents file_path w) as (Hr & Hl & Hc & He).
    destruct (DocumentService.load_one documents file_path w) as [r1 w1] eqn:E.
    cbn [fst snd] in *. subst r1. rewrite (bind_Ok _ _ _ _ _ E).
    specialize (IH (documents ++ loaded_from file_path) w1)
      as (Hr' & Hl' & Hc' & He').
    rewrite Hr', Hl', Hc', He', Hl, Hc, He. cbn [fmap list_fmap concat].
    rewrite !app_assoc. done.
Qed.

(** C4. For every sequence of file paths, [load_documents] returns (it
    never raises) the concatenation, in input order, of the Documents of
    the files whose extraction succeeds; a file with an unsupported
    extension leaves a warning in the log and a file whose extraction
    fails leaves an error record, and neither stops the loop; when no file
    is both supported and readable the result is the empty list.  The
    collections of the vector store are untouched. *)
Theorem load_documents_skips_failures (file_paths : list string) (w : World) :
  let r := DocumentService.load_documents (inr file_paths) w in
  r.1 = Ok (concat (loaded_from <$> file_paths)) ∧
  log r.2 = log w ++ concat (skipped_record <$> file_paths) ∧
  collections r.2 = collections w ∧
  ((∀ file_path documents, file_path ∈ file_paths →
      extraction file_path ≠ Some (Ok documents)) →
   r.1 = Ok []).
Proof.
  cbv zeta. unfold DocumentService.load_documents.
  pose proof (load_loop_spec file_paths [] w) as (Hr & Hl & Hc & _).
  cbn [app] in Hr. repeat split; try done.
  intros Hnone. rewrite Hr. f_equal.
  clear Hr Hl Hc. induction file_paths as [|p rest IH]; [done|].
  cbn [fmap list_fmap concat]. rewrite IH.
  - rewrite app_nil_r. unfold loaded_from.
    destruct (extraction p) as [[ds|e]|] eqn:E; try done.
    exfalso. eapply (Hnone p ds); [left | done].
  - intros q ds Hq. apply Hnone. by right.
Qed.

Lemma run_call_vectorstore (c : vs_call) (s : VectorStoreService.t * World) :
  (run_call c s).1 = Ok tt ∧
  Py.is_not_None (VectorStoreService._vectorstore (run_call c s).2.1) =
    initializes c || Py.is_not_None (VectorStoreService._vectorstore s.1).
Proof.
  destruct s as [[name em mk ek [e|] [vs|]] w];
    destruct c as [| | | |documents|documents]; try (split; reflexivity).
  all: unfold run_call, VectorStoreService.create_from_documents;
    destruct (bool_decide (VectorStoreService.empty_docs documents ≠ []));
    split; reflexivity.
Qed.

Lemma run_calls_vectorstore (cs : list vs_call) :
  ∀ s : VectorStoreService.t * World,
    (run_calls cs s).1 = Ok tt ∧
    Py.is_not_None (VectorStoreService._vectorstore (run_calls cs s).2.1) =
      existsb initializes cs || Py.is_not_None (VectorStoreService._vectorstore s.1).
Proof.
  induction cs as [|c cs IH]; intros s.
  - split; reflexivity.
  - unfold run_calls. cbn [for_each existsb].
    destruct (run_call_vectorstore c s) as [Hr Hv].
    destruct (run_call c s) as [r s1] eqn:E. cbn [fst snd] in *. subst r.
    rewrite (bind_Ok _ _ _ _ _ E).
    destruct (IH s1) as [Hr' Hv']. unfold run_calls in *.
    rewrite Hr', Hv', Hv. split; [done|]. by rewrite orb_assoc, (orb_comm (initializes c)).
Qed.

(** C6. On a service driven by any sequence of calls since its
    construction, [exists()] returns true exactly when one of the calls
    initialized the collection ([create_empty_vectorstore], a
    document-creating call or the [vectorstore] property), whatever the
    collection holds.  In particular it returns false on a freshly
    constructed service, and true right after [create_empty_vectorstore],
    whatever the store's constructor leaves in the collection. *)
Theorem exists_iff_initialized (name : string) (em : option string)
    (mk : option (gmap string string)) (ek : option (gmap string bool))
    (cs : list vs_call) (w : World) :
  let fresh := VectorStoreService.__init__ name em mk ek in
  (VectorStoreService.exists_ (run_calls cs (fresh, w)).2).1
    = Ok (existsb initializes cs) ∧
  (VectorStoreService.exists_ (fresh, w)).1 = Ok false ∧
  (let s := (VectorStoreService.create_empty_vectorstore (fresh, w)).2 in
   (VectorStoreService.exists_ s).1 = Ok true ∧
   entries_of name s.2 = Chroma_init name (entries_of name w)).
Proof.
  cbv zeta. split; [|split; [reflexivity|split]].
  - destruct (run_calls_vectorstore cs (VectorStoreService.__init__ name em mk ek, w))
      as [_ Hv].
    cbn [fst VectorStoreService._vectorstore VectorStoreService.__init__
         Py.is_not_None] in Hv.
    rewrite orb_false_r in Hv. rewrite <- Hv. reflexivity.
  - reflexivity.
  - cbn. unfold entries_of. cbn. by rewrite lookup_insert_eq.
Qed.

(** C2 (what the code does where the claim expects a failure).  On a
    service on which nothing has been called since its construction,
    [add_documents] does not fail: the [vectorstore] property constructs
    the store, the documents are inserted after the entries the constructor
    found, their ids are returned, and [exists()] is true afterwards. *)
Theorem add_documents_creates_collection (name : string) (em : option string)
    (mk : option (gmap string string)) (ek : option (gmap string bool))
    (documents : list Document) (w : World) :
  let fresh := VectorStoreService.__init__ name em mk ek in
  let r := VectorStoreService.add_documents documents (fresh, w) in
  let found := Chroma_init name (entries_of name w) in
  r.1 = Ok (pretty <$> seq (length found) (length documents)) ∧
  entries_of name r.2.2 = found ++ documents ∧
  (VectorStoreService.exists_ r.2).1 = Ok true ∧
  CallChroma name ∈ trace r.2.2 ∧
  log r.2.2 = log w.
Proof.
  cbv zeta. unfold VectorStoreService.add_documents, VectorStoreService.vectorstore.
  cbn. unfold entries_of. cbn. rewrite !lookup_insert_eq. cbn.
  repeat split. set_solver.
Qed.


(** White space beyond ASCII: a chunk that holds nothing but a no-break
    space (U+00A0) and an em space (U+2003) is blank, as it is for
    [str.strip()], and [create_from_documents] lists it in its warning. *)
Example blank_chunk_of_unicode_white_space :
  let no_break_space :=
    String (Ascii.ascii_of_nat 194) (String (Ascii.ascii_of_nat 160) "") in
  let em_space :=
    String (Ascii.ascii_of_nat 226)
      (String (Ascii.ascii_of_nat 128) (String (Ascii.ascii_of_nat 131) "")) in
  let documents :=
    [ {| page_content := "text"; metadata := ∅ |};
      {| page_content := no_break_space ++ em_space; metadata := ∅ |} ] in
  Py.strip (no_break_space ++ em_space) = "" ∧
  Py.strip (em_space ++ "text" ++ no_break_space) = "text" ∧
  VectorStoreService.empty_docs documents = [1%nat] ∧
  empty_content_warning documents
    = [ {| levelname := WARNING;
           message := "Found 1 documents with empty content at indices: [1]..." |} ].
Proof. vm_compute. done. Qed.

(** X22. For every list of file paths, [add_documents] with
    [force_rebuild] set ignores the files: it does what
    [initialize_vectorstore(force_rebuild=True)] does and nothing else.  A
    store is constructed for the session's collection and [exists()] is
    true afterwards; no loader, splitter or indexing call is made and the
    document service is not created, so the collection holds what the
    store's constructor left in it. *)
Theorem add_documents_force_rebuild (this : RAGService.t)
    (file_paths : list string) (w : World) :
  let r := RAGService.add_documents file_paths true (this, w) in
  let name := VectorStoreService.collection_name
                (RAGService.the_vectorstore_service this) in
  r = RAGService.initialize_vectorstore true (this, w) ∧
  r.1 = Ok tt ∧
  (RAGService.vectorstore_service VectorStoreService.exists_ r.2).1 = Ok true ∧
  entries_of name r.2.2 = Chroma_init name (entries_of name w) ∧
  RAGService._document_service r.2.1 = RAGService._document_service this ∧
  (∃ calls, trace r.2.2 = trace w ++ calls ∧
            CallChroma name ∈ calls ∧
            forallb (λ c, negb (is_ingestion_call c)) calls = true).
Proof.
  cbv zeta. destruct this as [cfg sid [[name em mk ek e v]|] d].
  - destruct e as [e|].
    + cbn. unfold entries_of. cbn. rewrite lookup_insert_eq.
      repeat split. eexists. split; [reflexivity|]. split; [set_solver|done].
    + cbn. unfold entries_of. cbn. rewrite lookup_insert_eq.
      repeat split. eexists. rewrite <- app_assoc.
      split; [reflexivity|]. split; [set_solver|done].
  - cbn. unfold entries_of. cbn. rewrite lookup_insert_eq.
    repeat split. eexists. rewrite <- app_assoc.
    split; [reflexivity|]. split; [set_solver|done].
Qed.

(** C1 (what the code does where the claim expects one retrieval).  A
    query invokes the retriever once for the references and, when that
    succeeds, a second time inside the chain for the context of the
    prompt: the trace gains two retrieval calls, not one. *)
Theorem query_with_sources_retrieves_twice (this : RAGService.t)
    (question : string) (llm : BaseChatModel) (w : World) :
  ∃ vs, (RAGService.vectorstore_service VectorStoreService.vectorstore (this, w)).1
          = Ok vs ∧
    let w1 := (RAGService.vectorstore_service VectorStoreService.vectorstore
                 (this, w)).2.2 in
    let retriever :=
      as_retriever vs (RAGConfig.retrieval_strategy (RAGService.config this))
        {[ "k" := RAGConfig.retrieval_k (RAGService.config this) ]} in
    let call := CallRetrieverInvoke retriever question in
    let r := RAGService.query_with_sources question llm (this, w) in
    retriever_calls (trace r.2.2) =
      retriever_calls (trace w) ++
      match retriever_results retriever question
              (entries_of (chroma_collection_name vs) w1) with
      | Ok _ => [call; call]
      | Raise _ => [call]
      end.
Proof.
  destruct this as [cfg sid [[name em mk ek [e|] [v|]]|] d].
  all: eexists; (split; [reflexivity|]); cbv zeta;
    unfold RAGService.query_with_sources; cbn;
    unfold bind, retriever_invoke, rag_chain.invoke, bind, retriever_invoke,
      RAGService.world, zoom, called, modify, get, lift_res, ret, entries_of; cbn;
    destruct (retriever_results _ question _) as [docs|err]; cbn;
    [ destruct (chat_model_invoke _ _); cbn | ];
    unfold retriever_calls; rewrite !List.filter_app; cbn;
    rewrite <- ?app_assoc, ?app_nil_r; reflexivity.
Qed.

(** *** Session isolation *)

#[local] Instance world_frame_refl n : Reflexive (world_frame n).
Proof. by intros w. Qed.

#[local] Instance world_frame_trans n : Transitive (world_frame n).
Proof.
  intros w1 w2 w3 [He Hc] [He' Hc']. split; [congruence|].
  intros m Hm. by rewrite Hc', Hc.
Qed.

#[local] Instance vs_step_refl n : Reflexive (vs_step n).
Proof. by intros s Hs. Qed.

#[local] Instance vs_step_trans n : Transitive (vs_step n).
Proof.
  intros s1 s2 s3 H12 H23 H1. destruct (H12 H1) as [H2 F12].
  destruct (H23 H2) as [H3 F23]. split; [done | by etrans].
Qed.

#[local] Instance rag_step_refl sid : Reflexive (rag_step sid).
Proof. by intros s Hs. Qed.

#[local] Instance rag_step_trans sid : Transitive (rag_step sid).
Proof.
  intros s1 s2 s3 H12 H23 H1. destruct (H12 H1) as [H2 F12].
  destruct (H23 H2) as [H3 F23]. split; [done | by etrans].
Qed.

#[local] Instance app_step_refl sid : Reflexive (app_step sid).
Proof. by intros s Hs. Qed.

#[local] Instance app_step_trans sid : Transitive (app_step sid).
Proof.
  intros s1 s2 s3 H12 H23 H1. destruct (H12 H1) as (H2 & K12 & F12).
  destruct (H23 H2) as (H3 & K23 & F23). split; [done|]. split; [|by etrans].
  intros other Ho. by rewrite K23, K12.
Qed.

(** What the collaborators and the logger change in the world. *)

Lemma frame_called n c : preserves (world_frame n) (called c).
Proof. by intros w. Qed.

Lemma frame_emit n l msg : preserves (world_frame n) (emit l msg).
Proof. by intros w. Qed.

Lemma frame_Chroma_new n e : preserves (world_frame n) (Chroma_new n e).
Proof.
  intros w. split; [done|]. intros m Hm. cbn. by rewrite lookup_insert_ne.
Qed.

Lemma frame_Chroma_add_documents vs documents :
  preserves (world_frame (chroma_collection_name vs))
            (Chroma_add_documents vs documents).
Proof.
  intros w. split; [done|]. intros m Hm. cbn. by rewrite lookup_insert_ne.
Qed.

Lemma frame_retriever_invoke n r query :
  preserves (world_frame n) (retriever_invoke r query).
Proof.
  intros w. unfold retriever_invoke, bind, called, modify, get, lift_res. cbn.
  done.
Qed.

Lemma frame_get_embeddings n a b c : preserves (world_frame n) (get_embeddings a b c).
Proof. by intros w. Qed.

Lemma frame_load_documents n file_paths :
  preserves (world_frame n) (DocumentService.load_documents (inr file_paths)).
Proof.
  intros w. unfold DocumentService.load_documents.
  destruct (load_loop_spec file_paths [] w) as (_ & _ & Hc & He).
  split; [done | intros m _; by rewrite Hc].
Qed.

Lemma frame_split_documents n documents a b :
  preserves (world_frame n) (DocumentService.split_documents documents a b).
Proof. by intros w. Qed.

Lemma frame_chain_invoke n chain question :
  preserves (world_frame n) (rag_chain.invoke chain question).
Proof.
  unfold rag_chain.invoke. apply preserves_bind; [apply _ | apply frame_retriever_invoke |].
  intros docs. apply preserves_bind; [apply _ | apply frame_called |].
  intros _. apply preserves_lift_res, _.
Qed.

Lemma frame_get_llm n provider model temperature api_key :
  preserves (world_frame n) (llm_factory.get_llm provider model temperature api_key).
Proof.
  intros w. unfold llm_factory.get_llm, llm_factory.getenv, bind, get, ret, raise,
    emit, modify.
  repeat (match goal with |- context [if ?b then _ else _] => destruct b end);
    cbn; repeat (match goal with |- context [match ?x with _ => _ end] =>
                   destruct x end); cbn; done.
Qed.

(** The methods of the vector store service keep its collection name and
    touch that collection only. *)

Lemma vs_world n {A} (m : M World A) :
  preserves (world_frame n) m → preserves (vs_step n) (VectorStoreService.world m).
Proof.
  apply preserves_zoom. intros s t Ht Hs. by split.
Qed.

Lemma vs_exists n : preserves (vs_step n) VectorStoreService.exists_.
Proof. by intros s Hs. Qed.

Lemma vs_create_empty_vectorstore n :
  preserves (vs_step n) VectorStoreService.create_empty_vectorstore.
Proof.
  intros [[name em mk ek e v] w] [Hn Hv]. cbn in Hn, Hv. subst name.
  destruct e as [e|]; cbn.
  all: split; [split; [done | by intros vs [= <-]]|].
  all: split; [done | intros m Hm; cbn; by rewrite lookup_insert_ne].
Qed.

Lemma vs_vectorstore n : preserves (vs_step n) VectorStoreService.vectorstore.
Proof.
  intros [[name em mk ek e v] w] [Hn Hv]. cbn in Hn, Hv. subst name.
  destruct v as [vs|]; [by split|].
  destruct e as [e|]; cbn.
  all: split; [split; [done | by intros vs [= <-]]|].
  all: split; [done | intros m Hm; cbn; by rewrite lookup_insert_ne].
Qed.

Lemma vs_add_documents n documents :
  preserves (vs_step n) (VectorStoreService.add_documents documents).
Proof.
  intros [[name em mk ek e v] w] [Hn Hv]. cbn in Hn, Hv. subst name.
  destruct v as [vs|].
  - specialize (Hv vs eq_refl). subst n. cbn.
    split; [split; [done | by intros vs' [= <-]]|].
    split; [done | intros m Hm; cbn; by rewrite lookup_insert_ne].
  - destruct e as [e|]; cbn.
    all: split; [split; [done | by intros vs [= <-]]|].
    all: split; [done | intros m Hm; cbn; by rewrite !lookup_insert_ne].
Qed.

(** The methods of the orchestrator keep its session id and touch the
    collection of its session only. *)

Lemma rag_vectorstore_service sid {A} (m : VectorStoreService.Method A) :
  preserves (vs_step (RAGService.collection_name_of sid)) m →
  preserves (rag_step sid) (RAGService.vectorstore_service m).
Proof.
  apply preserves_zoom. intros [svc w] [v w'] Hstep [Hsid Hv]. cbn in *.
  destruct Hstep as [Hv' Hf].
  - unfold RAGService.the_vectorstore_service.
    destruct (RAGService._vectorstore_service svc) as [v0|]; [by apply Hv|].
    split; [cbn; by rewrite Hsid | done].
  - split; [|done]. split; [done|]. by intros v1 [= <-].
Qed.

Lemma rag_world sid {A} (m : M World A) :
  preserves (world_frame (RAGService.collection_name_of sid)) m →
  preserves (rag_step sid) (RAGService.world m).
Proof. apply preserves_zoom. intros s t Ht Hs. by split. Qed.

Lemma rag_document_service sid {A} (m : M World A) :
  preserves (world_frame (RAGService.collection_name_of sid)) m →
  preserves (rag_step sid) (RAGService.document_service m).
Proof. apply preserves_zoom. intros s t Ht Hs. by split. Qed.

Lemma rag_self sid : preserves (rag_step sid) RAGService.self.
Proof. by intros s Hs. Qed.

Lemma rag_initialize_vectorstore sid force_rebuild :
  preserves (rag_step sid) (RAGService.initialize_vectorstore force_rebuild).
Proof.
  unfold RAGService.initialize_vectorstore.
  apply preserves_bind; [apply _| |].
  - destruct force_rebuild; [apply preserves_ret, _|].
    apply preserves_bind; [apply _| |intros; apply preserves_ret, _].
    apply rag_vectorstore_service, vs_exists.
  - intros [|]; (apply preserves_bind; [apply _| |intros; apply preserves_ret, _]).
    + apply rag_vectorstore_service, vs_create_empty_vectorstore.
    + apply rag_vectorstore_service, vs_vectorstore.
Qed.

Lemma rag_query_with_sources sid question llm :
  preserves (rag_step sid) (RAGService.query_with_sources question llm).
Proof.
  unfold RAGService.query_with_sources.
  apply preserves_bind; [apply _|apply rag_self|]. intros this.
  apply preserves_bind; [apply _| |].
  { apply rag_vectorstore_service, vs_vectorstore. }
  intros vs. apply preserves_bind; [apply _| |].
  { apply rag_world, frame_retriever_invoke. }
  intros docs. apply preserves_bind; [apply _| |intros; apply preserves_ret, _].
  apply rag_world, frame_chain_invoke.
Qed.

(** The handlers touch the registry at the addressed session only. *)

Lemma app_world sid {A} (m : M World A) :
  preserves (world_frame (RAGService.collection_name_of sid)) m →
  preserves (app_step sid) (main.world m).
Proof. apply preserves_zoom. intros app t Ht Hinv. by split. Qed.

Lemma app_insert sid svc' w' (app : main.App) :
  app_inv app → rag_inv sid svc' →
  world_frame (RAGService.collection_name_of sid) (main.world_of app) w' →
  app_step sid app
    {| main._sessions := <[sid := svc']> (main._sessions app);
       main.world_of := w' |}.
Proof.
  intros Hinv Hsvc Hw _. split; [|split; [|done]].
  - intros other svc0. cbn. destruct (decide (sid = other)) as [<-|Hne].
    + rewrite lookup_insert_eq. by intros [= <-].
    + rewrite lookup_insert_ne by done. apply Hinv.
  - intros other Hne. cbn. by rewrite lookup_insert_ne.
Qed.

Lemma app_service sid {A} (m : RAGService.Method A) :
  preserves (rag_step sid) m → preserves (app_step sid) (main.service sid m).
Proof.
  intros Hm app Hinv. unfold main.service.
  destruct (main._sessions app !! sid) as [svc|] eqn:E; [|by apply app_step_refl].
  specialize (Hm (svc, main.world_of app)).
  destruct (m (svc, main.world_of app)) as [r [svc' w']]. cbn [fst snd] in *.
  destruct (Hm (Hinv _ _ E)) as [Hsvc' Hw]. by apply app_insert.
Qed.

Lemma rag_inv_new sid cfg : rag_inv sid (RAGService.__init__ cfg sid).
Proof. by split. Qed.

Lemma app_get_rag_service sid : preserves (app_step sid) (main.get_rag_service sid).
Proof.
  intros app Hinv. unfold main.get_rag_service, bind, get.
  destruct (main._sessions app !! sid) as [svc|] eqn:E; [by apply app_step_refl|].
  pose proof (rag_initialize_vectorstore sid false
                (RAGService.__init__ (Some RAGConfig.__init__) sid, main.world_of app))
    as Hstep.
  destruct (RAGService.initialize_vectorstore false _) as [r [svc' w']].
  cbn [fst snd] in *. destruct (Hstep (rag_inv_new _ _)) as [Hsvc' Hw].
  destruct r as [[]|e]; cbn [snd].
  - by apply app_insert.
  - split; [done | by split].
Qed.

Lemma get_rag_service_returns sid (app : main.App) a :
  (main.get_rag_service sid app).1 = Ok a → a = sid.
Proof.
  unfold main.get_rag_service, bind, get.
  destruct (main._sessions app !! sid) as [svc|]; [by intros [= <-]|].
  destruct (RAGService.initialize_vectorstore false _) as [[[]|e] [svc' w']];
    cbn; by intros [= <-].
Qed.

Lemma app_delete_session sid : preserves (app_step sid) (main.delete_session sid).
Proof.
  intros app Hinv. unfold main.delete_session, bind, get, put, ret, raise.
  destruct (main._sessions app !! sid) as [svc|] eqn:E; cbn; [|by split].
  split; [|split; [|done]].
  - intros other svc0. cbn. destruct (decide (sid = other)) as [<-|Hne].
    + by rewrite lookup_delete_eq.
    + rewrite lookup_delete_ne by done. apply Hinv.
  - intros other Hne. cbn. by rewrite lookup_delete_ne.
Qed.

Lemma app_upload_files sid saved_files :
  preserves (app_step sid) (main.upload_files sid saved_files).
Proof.
  unfold main.upload_files. destruct saved_files as [|f fs]; [apply preserves_raise, _|].
  apply preserves_try_except; [apply _| |].
  - apply preserves_bind_returning with (Q := λ a, a = sid);
      [apply _|apply app_get_rag_service|apply get_rag_service_returns|].
    intros ? ->. apply preserves_bind; [apply _|apply app_service, rag_self|].
    intros this. apply preserves_bind; [apply _| |].
    { apply app_service, rag_document_service, frame_load_documents. }
    intros documents. apply preserves_bind; [apply _| |].
    { apply app_service, rag_document_service, frame_split_documents. }
    intros splits. apply preserves_bind; [apply _| |intros; apply preserves_ret, _].
    apply app_service, rag_vectorstore_service, vs_add_documents.
  - intros e. apply preserves_bind; [apply _| |intros; apply preserves_raise, _].
    apply app_world, frame_emit.
Qed.

Lemma app_ask_question req :
  preserves (app_step (main.session_id req)) (main.ask_question req).
Proof.
  unfold main.ask_question.
  apply preserves_try_except; [apply _| |].
  - apply preserves_bind_returning with (Q := λ a, a = main.session_id req);
      [apply _|apply app_get_rag_service|apply get_rag_service_returns|].
    intros ? ->. apply preserves_bind; [apply _| |].
    { apply app_world, frame_get_llm. }
    intros llm. apply preserves_bind; [apply _| |intros; apply preserves_ret, _].
    apply app_service, rag_query_with_sources.
  - intros e.
    destruct e; (apply preserves_bind; [apply _| |intros; apply preserves_raise, _]);
      apply app_world, frame_emit.
Qed.

Lemma serve_step (r : request) (app : main.App) :
  app_step (addressed r) app (serve app r).
Proof.
  destruct r as [sid files|req|sid]; cbn [serve addressed].
  - apply app_upload_files.
  - apply app_ask_question.
  - apply app_delete_session.
Qed.

Lemma app_inv_initial env : app_inv (main.App0 env).
Proof. intros sid svc. cbn. by rewrite lookup_empty. Qed.

Lemma app_inv_serve_all (rs : list request) :
  ∀ app, app_inv app → app_inv (serve_all rs app).
Proof.
  induction rs as [|r rs IH]; intros app Hinv; [done|].
  change (serve_all (r :: rs) app) with (serve_all rs (serve app r)).
  apply IH. by apply (serve_step r app).
Qed.

(** What the collaborators compute depends on the world only through the
    environment and the collection they are called on. *)

Lemma view_called n c : respects (world_view n) (called c).
Proof. by intros w1 w2 Hw. Qed.

Lemma view_emit n l msg : respects (world_view n) (emit l msg).
Proof. by intros w1 w2 Hw. Qed.

Lemma view_Chroma_new n e : respects (world_view n) (Chroma_new n e).
Proof.
  intros w1 w2 [He Hc].
  unfold Chroma_new, bind, called, modify, get, ret, entries_of. cbn. rewrite Hc.
  split; [done|]. split; [done|]. cbn. by rewrite !lookup_insert_eq.
Qed.

Lemma view_Chroma_add_documents vs documents :
  respects (world_view (chroma_collection_name vs)) (Chroma_add_documents vs documents).
Proof.
  intros w1 w2 [He Hc]. cbn. unfold entries_of. cbn. rewrite Hc.
  split; [done|]. split; [done|]. cbn. by rewrite !lookup_insert_eq.
Qed.

Lemma view_retriever_invoke r query :
  respects (world_view (chroma_collection_name (retriever_vectorstore r)))
           (retriever_invoke r query).
Proof.
  intros w1 w2 [He Hc]. unfold retriever_invoke, bind, called, modify, get, lift_res,
    entries_of. cbn. rewrite Hc. by split.
Qed.

Lemma view_get_embeddings n a b c : respects (world_view n) (get_embeddings a b c).
Proof. by intros w1 w2 Hw. Qed.

Lemma view_load_documents n file_paths :
  respects (world_view n) (DocumentService.load_documents (inr file_paths)).
Proof.
  intros w1 w2 [He Hc]. unfold DocumentService.load_documents.
  destruct (load_loop_spec file_paths [] w1) as (Hr1 & _ & Hc1 & He1).
  destruct (load_loop_spec file_paths [] w2) as (Hr2 & _ & Hc2 & He2).
  split; [congruence|]. split; [congruence | by rewrite Hc1, Hc2].
Qed.

Lemma view_split_documents n documents a b :
  respects (world_view n) (DocumentService.split_documents documents a b).
Proof. by intros w1 w2 Hw. Qed.

Lemma view_chain_invoke chain question :
  respects (world_view (chroma_collection_name
                          (retriever_vectorstore (rag_chain.chain_retriever chain))))
           (rag_chain.invoke chain question).
Proof.
  unfold rag_chain.invoke. apply respects_bind; [apply view_retriever_invoke|].
  intros docs. apply respects_bind; [apply view_called|].
  intros _. apply respects_lift_res.
Qed.

Lemma view_get_llm n provider model temperature api_key :
  respects (world_view n) (llm_factory.get_llm provider model temperature api_key).
Proof.
  intros w1 w2 [He Hc]. unfold llm_factory.get_llm.
  destruct (String.eqb provider "groq");
    [|destruct (String.eqb provider "gemini");
      [|destruct (String.eqb provider "ollama")]];
    unfold llm_factory.getenv, bind, get, ret, raise, emit, modify;
    cbn -[Py.or_]; rewrite ?He; try done.
  - by destruct (Py.or_ _ _) as [[|c k]|].
  - by destruct (Py.or_ _ _) as [[|c k]|].
Qed.

(** The methods of the vector store service. *)

Lemma view_vs_world n {A} (m : M World A) :
  respects (world_view n) m → respects (vs_view n) (VectorStoreService.world m).
Proof.
  apply respects_zoom.
  - by intros s1 s2 (_ & _ & Hw).
  - intros s1 s2 t1 t2 (Hs & Hinv & _) Ht. by split.
Qed.

Lemma view_vs_exists n : respects (vs_view n) VectorStoreService.exists_.
Proof. intros [v1 w1] [v2 w2] (Hv & Hinv & Hw). cbn in *. by subst v2. Qed.

Lemma view_vs_create_empty_vectorstore n :
  respects (vs_view n) VectorStoreService.create_empty_vectorstore.
Proof.
  intros [v1 w1] [v2 w2] (Hv & Hinv & Hw). cbn [fst snd] in *. subst v2.
  pose proof (vs_create_empty_vectorstore n (v1, w1) Hinv) as [Hinv' _].
  revert Hinv'. destruct Hinv as [Hn _], Hw as [He Hc].
  destruct v1 as [name em mk ek [e|] v]; cbn in Hn; subst name; cbn; intros Hinv'.
  all: unfold entries_of; cbn; rewrite ?Hc.
  all: split; [done|]; split; [done|]; split; [done|]; split; [done|];
    cbn; by rewrite !lookup_insert_eq.
Qed.

Lemma view_vs_vectorstore n : respects (vs_view n) VectorStoreService.vectorstore.
Proof.
  intros [v1 w1] [v2 w2] (Hv & Hinv & Hw). cbn [fst snd] in *. subst v2.
  pose proof (vs_vectorstore n (v1, w1) Hinv) as [Hinv' _].
  revert Hinv'. destruct Hinv as [Hn _], Hw as [He Hc].
  destruct v1 as [name em mk ek [e|] [vs|]]; cbn in Hn; subst name; cbn; intros Hinv'.
  all: unfold entries_of; cbn; rewrite ?Hc.
  all: split; [done|]; split; [done|]; split; [done|]; split; [done|];
    cbn; by rewrite ?lookup_insert_eq.
Qed.

Lemma view_vs_add_documents n documents :
  respects (vs_view n) (VectorStoreService.add_documents documents).
Proof.
  intros [v1 w1] [v2 w2] (Hv & Hinv & Hw). cbn [fst snd] in *. subst v2.
  pose proof (vs_add_documents n documents (v1, w1) Hinv) as [Hinv' _].
  revert Hinv'. destruct Hinv as [Hn Hvs], Hw as [He Hc].
  destruct v1 as [name em mk ek [e|] [vs|]]; cbn in Hn, Hvs; subst name;
    try (specialize (Hvs vs eq_refl); subst n);
    cbn; unfold entries_of; cbn; rewrite ?Hc, ?lookup_insert_eq; intros Hinv'.
  all: split; [done|]; split; [done|]; split; [done|]; split; [done|];
    cbn; by rewrite ?lookup_insert_eq.
Qed.

(** The methods of the orchestrator. *)

Lemma view_rag_vectorstore_service sid {A} (m : VectorStoreService.Method A) :
  respects (vs_view (RAGService.collection_name_of sid)) m →
  respects (rag_view sid) (RAGService.vectorstore_service m).
Proof.
  apply respects_zoom.
  - intros [s1 w1] [s2 w2] (Hs & [Hsid Hv] & Hw). cbn [fst snd] in *. subst s2.
    split; [done|]. split; [|done]. cbn.
    unfold RAGService.the_vectorstore_service.
    destruct (RAGService._vectorstore_service s1) as [v0|]; [by apply Hv|].
    split; [cbn; by rewrite Hsid | done].
  - intros [s1 w1] [s2 w2] [v1 w1'] [v2 w2'] (Hs & [Hsid Hv] & Hw) (Hv' & Hinv' & Hw').
    cbn [fst snd] in *. subst s2 v2. split; [done|]. split; [|done].
    split; [done|]. by intros v [= <-].
Qed.

Lemma view_rag_world sid {A} (m : M World A) :
  respects (world_view (RAGService.collection_name_of sid)) m →
  respects (rag_view sid) (RAGService.world m).
Proof.
  apply respects_zoom.
  - by intros s1 s2 (_ & _ & Hw).
  - intros s1 s2 t1 t2 (Hs & Hinv & _) Ht. by split.
Qed.

Lemma view_rag_document_service sid {A} (m : M World A) :
  respects (world_view (RAGService.collection_name_of sid)) m →
  respects (rag_view sid) (RAGService.document_service m).
Proof.
  apply respects_zoom.
  - by intros s1 s2 (_ & _ & Hw).
  - intros [s1 w1] [s2 w2] t1 t2 (Hs & Hinv & _) Ht. cbn [fst snd] in *. subst s2.
    split; [done|]. by split.
Qed.

Lemma view_rag_self sid : respects (rag_view sid) RAGService.self.
Proof. intros [s1 w1] [s2 w2] (Hs & Hinv & Hw). cbn in *. by subst s2. Qed.

Lemma view_rag_initialize_vectorstore sid force_rebuild :
  respects (rag_view sid) (RAGService.initialize_vectorstore force_rebuild).
Proof.
  unfold RAGService.initialize_vectorstore. apply respects_bind.
  - destruct force_rebuild; [apply respects_ret|].
    apply respects_bind; [|intros; apply respects_ret].
    apply view_rag_vectorstore_service, view_vs_exists.
  - intros [|]; (apply respects_bind; [|intros; apply respects_ret]).
    + apply view_rag_vectorstore_service, view_vs_create_empty_vectorstore.
    + apply view_rag_vectorstore_service, view_vs_vectorstore.
Qed.

Lemma vectorstore_returns_own_handle sid (s : RAGService.t * World) vs :
  rag_inv sid s.1 →
  (RAGService.vectorstore_service VectorStoreService.vectorstore s).1 = Ok vs →
  chroma_collection_name vs = RAGService.collection_name_of sid.
Proof.
  destruct s as [[cfg sid' [[name em mk ek e v]|] d] w]; intros [Hsid Hv]; cbn in Hsid, Hv.
  - destruct (Hv _ eq_refl) as [Hn Hvs]. cbn in Hn, Hvs. subst name sid'.
    destruct v as [vs0|]; [|destruct e as [e|]]; cbn; intros [= <-];
      [by apply Hvs | done | done].
  - subst sid'. cbn. by intros [= <-].
Qed.

Lemma view_rag_query_with_sources sid question llm :
  respects (rag_view sid) (RAGService.query_with_sources question llm).
Proof.
  unfold RAGService.query_with_sources.
  apply respects_bind; [apply view_rag_self|]. intros this.
  apply respects_bind_returning
    with (Q := λ vs, chroma_collection_name vs = RAGService.collection_name_of sid).
  - apply view_rag_vectorstore_service, view_vs_vectorstore.
  - intros s1 s2 vs (_ & Hinv & _). by apply vectorstore_returns_own_handle.
  - intros vs Hvs. apply respects_bind.
    + apply view_rag_world. rewrite <- Hvs. apply (view_retriever_invoke (as_retriever _ _ _)).
    + intros docs. apply respects_bind; [|intros; apply respects_ret].
      apply view_rag_world. rewrite <- Hvs.
      apply (view_chain_invoke (rag_chain.create_rag_chain _ (as_retriever _ _ _) _)).
Qed.

(** The handlers. *)

Lemma app_inv_insert sid svc (sessions : gmap string RAGService.t) w w' :
  app_inv {| main._sessions := sessions; main.world_of := w |} →
  rag_inv sid svc →
  app_inv {| main._sessions := <[sid := svc]> sessions; main.world_of := w' |}.
Proof.
  intros Hinv Hsvc other svc0. cbn. destruct (decide (sid = other)) as [<-|Hne].
  - rewrite lookup_insert_eq. by intros [= <-].
  - rewrite lookup_insert_ne by done. apply Hinv.
Qed.

Lemma view_app_world sid {A} (m : M World A) :
  respects (world_view (RAGService.collection_name_of sid)) m →
  respects (app_view sid) (main.world m).
Proof.
  apply respects_zoom.
  - by intros a1 a2 (_ & _ & _ & Hw).
  - by intros a1 a2 t1 t2 (I1 & I2 & Hreg & _) Ht.
Qed.

Lemma view_app_service sid {A} (m : RAGService.Method A) :
  respects (rag_view sid) m → respects (app_view sid) (main.service sid m).
Proof.
  intros Hm [reg1 w1] [reg2 w2] Hview.
  pose proof Hview as (I1 & I2 & Hreg & Hw). cbn in Hreg, Hw.
  unfold main.service. cbn [main._sessions main.world_of]. rewrite Hreg.
  destruct (reg2 !! sid) as [svc|] eqn:E; [|by split].
  destruct (Hm (svc, w1) (svc, w2)) as [Hr (Hs & Hinv & Hw')].
  { split; [done|]. split; [by eapply I2 | done]. }
  destruct (m (svc, w1)) as [r1 [svc1 w1']], (m (svc, w2)) as [r2 [svc2 w2']].
  cbn [fst snd] in *. subst r2 svc2. split; [done|].
  split; [by eapply app_inv_insert|]. split; [by eapply app_inv_insert|].
  split; [cbn; by rewrite !lookup_insert_eq | done].
Qed.

Lemma view_app_get_rag_service sid : respects (app_view sid) (main.get_rag_service sid).
Proof.
  intros [reg1 w1] [reg2 w2] Hview.
  pose proof Hview as (I1 & I2 & Hreg & Hw). cbn in Hreg, Hw.
  unfold main.get_rag_service, bind, get. cbn [main._sessions main.world_of].
  rewrite Hreg. destruct (reg2 !! sid) as [svc|] eqn:E; [by split|].
  cbn [main._sessions main.world_of].
  destruct (view_rag_initialize_vectorstore sid false
              (RAGService.__init__ (Some RAGConfig.__init__) sid, w1)
              (RAGService.__init__ (Some RAGConfig.__init__) sid, w2))
    as [Hr (Hs & Hinv & Hw')].
  { split; [done|]. split; [apply rag_inv_new | done]. }
  destruct (RAGService.initialize_vectorstore false (_, w1)) as [r1 [svc1 w1']].
  destruct (RAGService.initialize_vectorstore false (_, w2)) as [r2 [svc2 w2']].
  cbn [fst snd] in *. subst r2 svc2. destruct r1 as [[]|e]; cbn [fst snd].
  - split; [done|].
    split; [by eapply app_inv_insert|]. split; [by eapply app_inv_insert|].
    split; [cbn; by rewrite !lookup_insert_eq | done].
  - split; [done|]. split; [exact I1|]. split; [exact I2|].
    split; [cbn; congruence | done].
Qed.

Lemma view_app_delete_session sid :
  respects (app_view sid) (main.delete_session sid).
Proof.
  intros [reg1 w1] [reg2 w2] Hview.
  pose proof Hview as (I1 & I2 & Hreg & Hw). cbn in Hreg, Hw.
  unfold main.delete_session, bind, get, put, ret, raise.
  cbn [main._sessions main.world_of]. rewrite Hreg.
  destruct (reg2 !! sid) as [svc|] eqn:E; cbn; [|by split].
  split; [done|].
  assert (∀ reg w, app_inv {| main._sessions := reg; main.world_of := w |} →
                   app_inv {| main._sessions := delete sid reg; main.world_of := w |})
    as Hdel.
  { intros reg w Hinv other svc0. cbn. destruct (decide (sid = other)) as [<-|Hne].
    - by rewrite lookup_delete_eq.
    - rewrite lookup_delete_ne by done. apply Hinv. }
  split; [by apply Hdel|]. split; [by apply Hdel|].
  split; [cbn; by rewrite !lookup_delete_eq | done].
Qed.

Lemma view_app_upload_files sid saved_files :
  respects (app_view sid) (main.upload_files sid saved_files).
Proof.
  unfold main.upload_files. destruct saved_files as [|f fs]; [apply respects_raise|].
  apply respects_try_except.
  - apply respects_bind_returning with (Q := λ a, a = sid);
      [apply view_app_get_rag_service
      |intros s1 s2 a _; apply get_rag_service_returns|].
    intros ? ->. apply respects_bind; [apply view_app_service, view_rag_self|].
    intros this. apply respects_bind.
    { apply view_app_service, view_rag_document_service, view_load_documents. }
    intros documents. apply respects_bind.
    { apply view_app_service, view_rag_document_service, view_split_documents. }
    intros splits. apply respects_bind; [|intros; apply respects_ret].
    apply view_app_service, view_rag_vectorstore_service, view_vs_add_documents.
  - intros e. apply respects_bind; [|intros; apply respects_raise].
    apply view_app_world, view_emit.
Qed.

Lemma view_app_ask_question req :
  respects (app_view (main.session_id req)) (main.ask_question req).
Proof.
  unfold main.ask_question. apply respects_try_except.
  - apply respects_bind_returning with (Q := λ a, a = main.session_id req);
      [apply view_app_get_rag_service
      |intros s1 s2 a _; apply get_rag_service_returns|].
    intros ? ->. apply respects_bind; [apply view_app_world, view_get_llm|].
    intros llm. apply respects_bind; [|intros; apply respects_ret].
    apply view_app_service, view_rag_query_with_sources.
  - intros e.
    destruct e; (apply respects_bind; [|intros; apply respects_raise]);
      apply view_app_world, view_emit.
Qed.

Lemma view_retrieval_against sid question llm :
  respects (app_view sid) (retrieval_against sid question llm).
Proof.
  unfold retrieval_against.
  apply respects_bind_returning with (Q := λ a, a = sid);
    [apply view_app_get_rag_service
    |intros s1 s2 a _; apply get_rag_service_returns|].
  intros ? ->. apply view_app_service, view_rag_query_with_sources.
Qed.

(** A request addressed to a session acts alike on states that look alike
    to the session; a request addressed elsewhere leaves the look of the
    state to the session as it was. *)

Lemma serve_same_session sid (r : request) (a1 a2 : main.App) :
  addressed r = sid → app_view sid a1 a2 → app_view sid (serve a1 r) (serve a2 r).
Proof.
  intros <- Hv. destruct r as [sid files|req|sid]; cbn [serve addressed] in *.
  - by apply view_app_upload_files.
  - by apply view_app_ask_question.
  - by apply view_app_delete_session.
Qed.

Lemma serve_other_session sid (r : request) (a1 a2 : main.App) :
  addressed r ≠ sid → app_view sid a1 a2 → app_view sid (serve a1 r) a2.
Proof.
  intros Hne (I1 & I2 & Hreg & [He Hc]).
  destruct (serve_step r a1 I1) as (I1' & Hreg' & He' & Hc').
  split; [done|]. split; [done|]. split; [|split].
  - rewrite Hreg'; [done | congruence].
  - congruence.
  - rewrite Hc'; [done|]. unfold RAGService.collection_name_of. intros Heq.
    apply Hne. symmetry. by apply (inj (String.append "session_")) in Heq.
Qed.

Lemma serve_all_projection sid (rs : list request) :
  ∀ a1 a2, app_view sid a1 a2 →
    app_view sid (serve_all rs a1)
                 (serve_all (filter (λ r, addressed r = sid) rs) a2).
Proof.
  induction rs as [|r rs IH]; intros a1 a2 Hv; [done|].
  change (serve_all (r :: rs) a1) with (serve_all rs (serve a1 r)).
  rewrite filter_cons. destruct (decide (addressed r = sid)) as [Heq|Hne].
  - change (serve_all (r :: ?l) a2) with (serve_all l (serve a2 r)).
    by apply IH, serve_same_session.
  - by apply IH, serve_other_session.
Qed.

(** C3. The collection names derived from two distinct session ids are
    distinct, and no session sees another session's entries: after any
    history of requests (uploads, questions, evictions, addressed to any
    sessions in any order), every query against a session returns exactly
    the answer and the references it would return had only the requests
    addressed to that session been served.  What was ingested under other
    sessions is never returned. *)
Theorem session_isolation (env : gmap string string) (history : list request)
    (sid question : string) (llm : BaseChatModel) :
  (∀ other, other ≠ sid →
     RAGService.collection_name_of other ≠ RAGService.collection_name_of sid) ∧
  (retrieval_against sid question llm (serve_all history (main.App0 env))).1
    = (retrieval_against sid question llm
         (serve_all (filter (λ r, addressed r = sid) history) (main.App0 env))).1.
Proof.
  split.
  - intros other Hne Heq. apply Hne.
    by apply (inj (String.append "session_")) in Heq.
  - apply view_retrieval_against, serve_all_projection.
    split; [apply app_inv_initial|]. split; [apply app_inv_initial|]. by split.
Qed.

End Properties.


(** ** The properties at concrete inputs *)

(** C9 at concrete inputs: an unknown provider, a hosted provider without
    any credential, the local provider, and a hosted provider whose
    credential comes from the environment. *)
Lemma get_llm_resolution_witness :
  (llm_factory.get_llm "openai" "gpt" 0.5%Q (Some "k") (World0 ∅)).1
    = Raise (ValueError "Unknown provider: openai") ∧
  (llm_factory.get_llm "groq" "llama-3.1-8b-instant" 0.5%Q (Some "") (World0 ∅)).1
    = Raise (ValueError
        "Groq API key is required. Pass api_key or set GROQ_API_KEY env var.") ∧
  (llm_factory.get_llm "ollama" "llama3" 0.5%Q None (World0 ∅)).1
    = Ok (ChatOllama "llama3" 0.5%Q) ∧
  is_ok (llm_factory.get_llm "gemini" "gemini-2.5-pro" 0.5%Q None
           (World0 {[ "GOOGLE_API_KEY" := "secret" ]})).1 = true.
Proof.
  split; [|split; [|split]].
  - apply (get_llm_resolution "openai" "gpt" 0.5%Q (Some "k") (World0 ∅)).
    unfold supported_providers. intros Hin.
    repeat (apply elem_of_cons in Hin as [Hin|Hin]; [discriminate|]).
    by apply elem_of_nil in Hin.
  - apply (get_llm_resolution "groq" "llama-3.1-8b-instant" 0.5%Q (Some "")
             (World0 ∅)); reflexivity.
  - apply (get_llm_resolution "ollama" "llama3" 0.5%Q None (World0 ∅)).
    reflexivity.
  - apply (get_llm_resolution "gemini" "gemini-2.5-pro" 0.5%Q None
             (World0 {[ "GOOGLE_API_KEY" := "secret" ]})).
    + unfold supported_providers. by repeat constructor.
    + reflexivity.
Defined.

(** C5 at a concrete input: the strategy "bogus". *)
Lemma retrieve_unknown_strategy_witness :
  "bogus" ≠ "similarity" ∧ "bogus" ≠ "mmr" ∧
  (@RetrievalService.retrieve sample_libraries
     {| RetrievalService.vectorstore :=
          {| chroma_collection_name := "c";
             chroma_embedding_function :=
               {| model_name := "m"; hf_model_kwargs := ∅; hf_encode_kwargs := ∅ |} |} |}
     "query" "bogus" 4 (World0 ∅)).1
    = Raise (ValueError "Unknown strategy: bogus. Use 'similarity' or 'mmr'").
Proof.
  split; [discriminate|]. split; [discriminate|].
  apply (@retrieve_unknown_strategy sample_libraries); discriminate.
Defined.

(** C4 at a concrete input: a corrupt PDF and a text file load nothing and
    raise nothing. *)
Lemma load_documents_skips_failures_witness :
  (@DocumentService.load_documents sample_libraries
     (inr ["corrupt.pdf"; "notes.txt"]) (World0 ∅)).1 = Ok [].
Proof.
  apply (@load_documents_skips_failures sample_libraries
           ["corrupt.pdf"; "notes.txt"] (World0 ∅)).
  intros file_path documents Hin.
  apply elem_of_cons in Hin as [->|Hin]; [discriminate|].
  apply list_elem_of_singleton in Hin as ->. discriminate.
Defined.

(** Two sessions, run: after uploads into "A" and "B", the query against
    "B" returns the page of "B" and not the page uploaded into "A". *)
Example session_isolation_run :
  (@retrieval_against sample_libraries "B" "what?" (ChatOllama "llama3" 0.5%Q)
     (@serve_all sample_libraries
        [ Upload "A" ["a.pdf"]; Upload "B" ["b.html"] ] (main.App0 ∅))).1
  = Ok ("answer", ["b.html"]).
Proof. vm_compute. reflexivity. Qed.

(** A query on a ready session, run: the trace shows two retrieval calls. *)
Example query_with_sources_run :
  length (retriever_calls
            (trace (main.world_of
               (@retrieval_against sample_libraries "B" "what?"
                  (ChatOllama "llama3" 0.5%Q)
                  (@serve_all sample_libraries [Upload "B" ["b.html"]]
                     (main.App0 ∅))).2))) = 2.
Proof. vm_compute. reflexivity. Qed.

(** ** Further properties of the services *)

Section Further.
Context `{Libraries}.

Lemma document_service_run {A} (m : M World A) (s : RAGService.t * World) :
  RAGService.document_service m s =
    ((m s.2).1,
     (RAGService.set__document_service
        (default DocumentService.__init__ (RAGService._document_service s.1)) s.1,
      (m s.2).2)).
Proof. unfold RAGService.document_service, zoom. cbn. by destruct (m s.2). Qed.

(** X1. Without [force_rebuild], [add_documents] on an orchestrator whose
    vector store does not exist raises the [ValueError] "Vector store does
    not exist. Use initialize_vectorstore() first.", logs it as critical,
    and stops there: no file is loaded, no collaborator is called and no
    collection changes. *)
Theorem add_documents_requires_store (this : RAGService.t)
    (file_paths : list string) (w : World) :
  ¬ rag_ready this →
  let r := RAGService.add_documents file_paths false (this, w) in
  r.1 = Raise (ValueError
                 "Vector store does not exist. Use initialize_vectorstore() first.") ∧
  trace r.2.2 = trace w ∧
  collections r.2.2 = collections w ∧
  log r.2.2 = log w ++
    [ {| levelname := CRITICAL;
         message := "Vector store does not exist. Use initialize_vectorstore() first." |} ] ∧
  ¬ rag_ready r.2.1.
Proof.
  intros Hnot. cbv zeta.
  destruct this as [cfg sid [[name em mk ek e [vs|]]|] d].
  - exfalso. apply Hnot. eexists. split; [reflexivity|]. by eexists.
  - cbn. repeat split. intros (v & [= <-] & [vs Hvs]). done.
  - cbn. repeat split. intros (v & [= <-] & [vs Hvs]). done.
Qed.


Lemma initialize_vectorstore_ready (this : RAGService.t) (force_rebuild : bool)
    (w : World) :
  (RAGService.initialize_vectorstore force_rebuild (this, w)).1 = Ok tt ∧
  rag_ready (RAGService.initialize_vectorstore force_rebuild (this, w)).2.1 ∧
  RAGService.config (RAGService.initialize_vectorstore force_rebuild (this, w)).2.1
    = RAGService.config this.
Proof.
  destruct this as [cfg sid [[name em mk ek [e|] [vs|]]|] d], force_rebuild;
    (split; [done|]); (split; [|done]); cbn;
    (eexists; split; [reflexivity | by eexists]).
Qed.

(** X3. [initialize_vectorstore] leaves the orchestrator with an existing
    store handle.  With [force_rebuild] unset on an orchestrator whose store
    already exists it changes nothing at all: the handle, the entries and
    the trace stay as they are (no new store is constructed).  In every
    other case it constructs a store for the orchestrator's collection, the
    constructor being the last call it makes, and the collection holds what
    the constructor left in it. *)
Theorem initialize_vectorstore_creates_once (this : RAGService.t)
    (force_rebuild : bool) (w : World) :
  let r := RAGService.initialize_vectorstore force_rebuild (this, w) in
  let name := VectorStoreService.collection_name
                (RAGService.the_vectorstore_service this) in
  rag_ready r.2.1 ∧
  (rag_ready this → force_rebuild = false → r.2 = (this, w)) ∧
  (¬ rag_ready this ∨ force_rebuild = true →
     last (trace r.2.2) = Some (CallChroma name) ∧
     entries_of name r.2.2 = Chroma_init name (entries_of name w)).
Proof.
  cbv zeta. split; [|split].
  - apply initialize_vectorstore_ready.
  - intros (v & Hv & [vs Hvs]) ->.
    destruct this as [cfg sid ov d]. cbn in Hv. subst ov.
    destruct v as [name em mk ek e ovs]. cbn in Hvs. by subst ovs.
  - intros Hn.
    destruct this as [cfg sid [[name em mk ek e [vs|]]|] d], force_rebuild.
    all: try (exfalso; destruct Hn as [Hn|Hn]; [|done];
              apply Hn; eexists; split; [reflexivity | by eexists]).
    all: try destruct e as [e|];
      cbn; unfold entries_of; cbn; rewrite lookup_insert_eq, ?last_snoc; done.
Qed.

(** X4. [get_rag_service] returns the orchestrator registered for the
    session (the model refers to it by its key) and is idempotent:
    afterwards the session is registered and calling it again changes
    nothing; if the session was registered before, nothing changes the
    first time either.  If it was not, the new orchestrator carries the
    session id and its store handle exists, the session's collection holds
    what the store's constructor left of the entries it held, and the other
    sessions are untouched. *)
Theorem get_rag_service_idempotent (sid : string) (app : main.App) :
  let r := main.get_rag_service sid app in
  let name := RAGService.collection_name_of sid in
  r.1 = Ok sid ∧
  is_Some (main._sessions r.2 !! sid) ∧
  main.get_rag_service sid r.2 = (Ok sid, r.2) ∧
  (is_Some (main._sessions app !! sid) → r.2 = app) ∧
  (main._sessions app !! sid = None →
     (∃ svc, main._sessions r.2 !! sid = Some svc ∧ rag_ready svc ∧
             RAGService.session_id svc = sid) ∧
     entries_of name (main.world_of r.2)
       = Chroma_init name (entries_of name (main.world_of app)) ∧
     ∀ other, other ≠ sid →
       main._sessions r.2 !! other = main._sessions app !! other).
Proof.
  cbv zeta. unfold main.get_rag_service, bind, get. cbn beta iota.
  destruct (main._sessions app !! sid) as [svc|] eqn:E.
  - cbn. rewrite E. repeat split; done.
  - cbn. rewrite lookup_insert_eq. cbn. unfold entries_of. cbn.
    rewrite lookup_insert_eq.
    split; [done|]. split; [by eexists|]. split; [done|].
    split; [by intros [? ?]|]. intros _. split; [|split; [done|]].
    + eexists. split; [reflexivity|]. split; [|done].
      eexists. split; [reflexivity | by eexists].
    + intros other Hne. by rewrite lookup_insert_ne.
Qed.

(** X5. [delete_session] only forgets the session: the registry loses the
    key and nothing else, and the world (the collections of the vector
    store included) is as it was; a registered session is confirmed by
    name, a missing one is answered with HTTP 404 and changes nothing. *)
Theorem delete_session_forgets (sid : string) (app : main.App) :
  let r := main.delete_session sid app in
  main.world_of r.2 = main.world_of app ∧
  main._sessions r.2 = delete sid (main._sessions app) ∧
  (is_Some (main._sessions app !! sid) →
     r.1 = Ok ("Session " ++ sid ++ " deleted")%string) ∧
  (main._sessions app !! sid = None →
     r = (Raise (HTTPException 404 "Session not found"), app)).
Proof.
  cbv zeta. unfold main.delete_session, bind, get, put, ret, raise. cbn beta iota.
  destruct app as [reg w]. cbn [main._sessions main.world_of].
  destruct (reg !! sid) as [svc|] eqn:E; cbn.
  - repeat split; try done.
  - rewrite delete_id by done. repeat split; done.
Qed.

(** *** Registered sessions stay ready *)

#[local] Instance keeps_refl {S} (P : S → Prop) : Reflexive (keeps P).
Proof. by intros s Hs. Qed.

#[local] Instance keeps_trans {S} (P : S → Prop) : Transitive (keeps P).
Proof. intros s1 s2 s3 H12 H23 H1. by apply H23, H12. Qed.

Lemma ready_vs_world {A} (m : M World A) :
  preserves (keeps (λ s, vs_ready s.1)) (VectorStoreService.world m).
Proof.
  intros s Hs. unfold VectorStoreService.world, zoom. by destruct (m s.2).
Qed.

Lemma ready_vs_exists :
  preserves (keeps (λ s, vs_ready s.1)) VectorStoreService.exists_.
Proof. by intros s Hs. Qed.

Lemma ready_vs_vectorstore :
  preserves (keeps (λ s, vs_ready s.1)) VectorStoreService.vectorstore.
Proof. intros [[name em mk ek e [vs|]] w] [vs' Hs]; [by eexists | done]. Qed.

Lemma ready_vs_add_documents documents :
  preserves (keeps (λ s, vs_ready s.1)) (VectorStoreService.add_documents documents).
Proof. intros [[name em mk ek e [vs|]] w] [vs' Hs]; [by eexists | done]. Qed.

Lemma ready_rag_vectorstore_service {A} (m : VectorStoreService.Method A) :
  preserves (keeps (λ s, vs_ready s.1)) m →
  preserves (keeps (λ s, rag_standard s.1)) (RAGService.vectorstore_service m).
Proof.
  intros Hm [svc w] [(v & Hv & Hready) Hcfg]. unfold RAGService.vectorstore_service, zoom.
  cbn [fst snd] in *. unfold RAGService.the_vectorstore_service. rewrite Hv.
  specialize (Hm (v, w) Hready). destruct (m (v, w)) as [r [v' w']].
  cbn [fst snd] in *. split; [by exists v' | done].
Qed.

Lemma ready_rag_world {A} (m : M World A) :
  preserves (keeps (λ s, rag_standard s.1)) (RAGService.world m).
Proof. intros s Hs. unfold RAGService.world, zoom. by destruct (m s.2). Qed.

Lemma ready_rag_document_service {A} (m : M World A) :
  preserves (keeps (λ s, rag_standard s.1)) (RAGService.document_service m).
Proof. intros s Hs. rewrite document_service_run. exact Hs. Qed.

Lemma ready_rag_self : preserves (keeps (λ s, rag_standard s.1)) RAGService.self.
Proof. by intros s Hs. Qed.

Lemma ready_rag_query_with_sources question llm :
  preserves (keeps (λ s, rag_standard s.1)) (RAGService.query_with_sources question llm).
Proof.
  unfold RAGService.query_with_sources.
  apply preserves_bind; [apply _|apply ready_rag_self|]. intros this.
  apply preserves_bind; [apply _| |].
  { apply ready_rag_vectorstore_service, ready_vs_vectorstore. }
  intros vs. apply preserves_bind; [apply _|apply ready_rag_world|].
  intros docs. apply preserves_bind; [apply _|apply ready_rag_world|].
  intros answer. apply preserves_ret, _.
Qed.

Lemma ready_app_world {A} (m : M World A) : preserves (keeps app_standard) (main.world m).
Proof.
  intros app Hready. unfold main.world, zoom. by destruct (m (main.world_of app)).
Qed.

Lemma app_standard_insert sid svc (sessions : gmap string RAGService.t) w w' :
  app_standard {| main._sessions := sessions; main.world_of := w |} →
  rag_standard svc →
  app_standard {| main._sessions := <[sid := svc]> sessions; main.world_of := w' |}.
Proof.
  intros Hready Hsvc other svc0. cbn. destruct (decide (sid = other)) as [<-|Hne].
  - rewrite lookup_insert_eq. by intros [= <-].
  - rewrite lookup_insert_ne by done. apply Hready.
Qed.

Lemma ready_app_service sid {A} (m : RAGService.Method A) :
  preserves (keeps (λ s, rag_standard s.1)) m →
  preserves (keeps app_standard) (main.service sid m).
Proof.
  intros Hm [reg w] Hready. unfold main.service. cbn [main._sessions main.world_of].
  destruct (reg !! sid) as [svc|] eqn:E; [|done].
  specialize (Hm (svc, w) (Hready _ _ E)).
  destruct (m (svc, w)) as [r [svc' w']]. cbn [fst snd] in *.
  by eapply app_standard_insert.
Qed.

Lemma ready_app_get_rag_service sid :
  preserves (keeps app_standard) (main.get_rag_service sid).
Proof.
  intros [reg w] Hready. unfold main.get_rag_service, bind, get.
  cbn [main._sessions main.world_of].
  destruct (reg !! sid) as [svc|] eqn:E; [done|]. cbn [main._sessions main.world_of].
  destruct (initialize_vectorstore_ready
              (RAGService.__init__ (Some RAGConfig.__init__) sid) false w)
    as (Hr & Hsvc & Hcfg).
  destruct (RAGService.initialize_vectorstore false _) as [r [svc' w']].
  cbn [fst snd] in *. subst r. by eapply app_standard_insert.
Qed.

Lemma ready_app_delete_session sid :
  preserves (keeps app_standard) (main.delete_session sid).
Proof.
  intros [reg w] Hready. unfold main.delete_session, bind, get, put, ret, raise.
  cbn [main._sessions main.world_of].
  destruct (reg !! sid) as [svc|] eqn:E; cbn; [|done].
  intros other svc0. cbn. intros Hl. apply lookup_delete_Some in Hl as [_ Hl].
  by eapply Hready.
Qed.

Lemma ready_app_upload_files sid saved_files :
  preserves (keeps app_standard) (main.upload_files sid saved_files).
Proof.
  unfold main.upload_files. destruct saved_files as [|f fs]; [apply preserves_raise, _|].
  apply preserves_try_except; [apply _| |].
  - apply preserves_bind; [apply _|apply ready_app_get_rag_service|].
    intros s. apply preserves_bind; [apply _|apply ready_app_service, ready_rag_self|].
    intros this. apply preserves_bind; [apply _| |].
    { apply ready_app_service, ready_rag_document_service. }
    intros documents. apply preserves_bind; [apply _| |].
    { apply ready_app_service, ready_rag_document_service. }
    intros splits. apply preserves_bind; [apply _| |intros; apply preserves_ret, _].
    apply ready_app_service, ready_rag_vectorstore_service, ready_vs_add_documents.
  - intros e. apply preserves_bind; [apply _|apply ready_app_world|].
    intros _. apply preserves_raise, _.
Qed.

Lemma ready_app_ask_question req :
  preserves (keeps app_standard) (main.ask_question req).
Proof.
  unfold main.ask_question. apply preserves_try_except; [apply _| |].
  - apply preserves_bind; [apply _|apply ready_app_get_rag_service|].
    intros s. apply preserves_bind; [apply _|apply ready_app_world|].
    intros llm. apply preserves_bind; [apply _| |intros; apply preserves_ret, _].
    apply ready_app_service, ready_rag_query_with_sources.
  - intros e.
    destruct e; (apply preserves_bind; [apply _|apply ready_app_world|]);
      intros _; apply preserves_raise, _.
Qed.

Lemma app_standard_serve_all (rs : list request) :
  ∀ app, app_standard app → app_standard (serve_all rs app).
Proof.
  induction rs as [|r rs IH]; intros app Hready; [done|].
  change (serve_all (r :: rs) app) with (serve_all rs (serve app r)).
  apply IH. destruct r as [sid files|req|sid]; cbn [serve].
  - by apply ready_app_upload_files.
  - by apply ready_app_ask_question.
  - by apply ready_app_delete_session.
Qed.

(** X6. Whatever requests have been served, every registered session is
    ready: its orchestrator carries the key it is registered under and the
    configuration [RAGConfig()], its vector store service and its store
    handle exist, and both name the collection "session_<id>".  So the upload handler, which calls the
    vector store's [add_documents] without a check, always finds an
    initialized store. *)
Theorem registered_sessions_are_ready (env : gmap string string)
    (history : list request) (sid : string) (svc : RAGService.t) :
  main._sessions (serve_all history (main.App0 env)) !! sid = Some svc →
  RAGService.session_id svc = sid ∧
  RAGService.config svc = RAGConfig.__init__ ∧
  ∃ v vs,
    RAGService._vectorstore_service svc = Some v ∧
    VectorStoreService._vectorstore v = Some vs ∧
    VectorStoreService.collection_name v = ("session_" ++ sid)%string ∧
    chroma_collection_name vs = ("session_" ++ sid)%string.
Proof.
  intros Hsvc.
  pose proof (app_inv_serve_all history _ (app_inv_initial env) _ _ Hsvc) as [Hsid Hinv].
  assert (app_standard (main.App0 env)) as Hinit.
  { intros s svc0. cbn. by rewrite lookup_empty. }
  destruct (app_standard_serve_all history _ Hinit _ _ Hsvc)
    as [(v & Hv & [vs Hvs]) Hcfg].
  split; [done|]. split; [done|]. exists v, vs. destruct (Hinv v Hv) as [Hn Hc].
  split; [done|]. split; [done|]. split; [done|]. by apply Hc.
Qed.

(** *** What a question changes *)

Lemma get_rag_service_state sid (app : main.App) :
  (main.get_rag_service sid app).1 = Ok sid ∧
  is_Some (main._sessions (main.get_rag_service sid app).2 !! sid) ∧
  retriever_calls (trace (main.world_of (main.get_rag_service sid app).2))
    = retriever_calls (trace (main.world_of app)).
Proof.
  unfold main.get_rag_service, bind, get. cbn beta iota.
  destruct (main._sessions app !! sid) as [svc|] eqn:E.
  - cbn. by rewrite E.
  - cbn. rewrite lookup_insert_eq. split; [done|]. split; [by eexists|].
    unfold retriever_calls. rewrite !List.filter_app. cbn. by rewrite !app_nil_r.
Qed.

Lemma bind_Raise {S A B} (m : M S A) (k : A → M S B) (s s' : S) (e : exn) :
  m s = (Raise e, s') → bind m k s = (Raise e, s').
Proof. intros E. unfold bind. by rewrite E. Qed.

Lemma main_world_run {A} (m : M World A) (app : main.App) :
  main.world m app =
    ((m (main.world_of app)).1,
     {| main._sessions := main._sessions app;
        main.world_of := (m (main.world_of app)).2 |}).
Proof. unfold main.world, zoom. by destruct (m (main.world_of app)). Qed.

Lemma service_run sid {A} (m : RAGService.Method A) (app : main.App) svc :
  main._sessions app !! sid = Some svc →
  main.service sid m app =
    ((m (svc, main.world_of app)).1,
     {| main._sessions := <[sid := (m (svc, main.world_of app)).2.1]> (main._sessions app);
        main.world_of := (m (svc, main.world_of app)).2.2 |}).
Proof.
  intros E. unfold main.service. rewrite E.
  by destruct (m (svc, main.world_of app)) as [r [svc' w']].
Qed.

Lemma get_rag_service_registered sid (app : main.App) :
  is_Some (main._sessions app !! sid) → main.get_rag_service sid app = (Ok sid, app).
Proof.
  intros [svc E]. unfold main.get_rag_service, bind, get. cbn beta iota. by rewrite E.
Qed.

Lemma get_llm_world provider model temperature api_key (w : World) :
  collections (llm_factory.get_llm provider model temperature api_key w).2
    = collections w ∧
  environ (llm_factory.get_llm provider model temperature api_key w).2 = environ w ∧
  trace (llm_factory.get_llm provider model temperature api_key w).2 = trace w.
Proof.
  unfold llm_factory.get_llm.
  destruct (String.eqb provider "groq");
    [|destruct (String.eqb provider "gemini");
      [|destruct (String.eqb provider "ollama")]];
    unfold llm_factory.getenv, bind, get, ret, raise, emit, modify;
    cbn -[Py.or_]; try done.
  - by destruct (Py.or_ _ _) as [[|c k]|].
  - by destruct (Py.or_ _ _) as [[|c k]|].
Qed.

Lemma query_with_sources_ready question llm (svc : RAGService.t) v vs (w : World) :
  RAGService._vectorstore_service svc = Some v →
  VectorStoreService._vectorstore v = Some vs →
  (RAGService.query_with_sources question llm (svc, w)).2.1 = svc ∧
  collections (RAGService.query_with_sources question llm (svc, w)).2.2
    = collections w.
Proof.
  intros Hv Hvs. destruct svc as [cfg sid ov d]. cbn in Hv. subst ov.
  destruct v as [name em mk ek e ovs]. cbn in Hvs. subst ovs.
  unfold RAGService.query_with_sources; cbn;
    unfold bind, retriever_invoke, rag_chain.invoke, bind, retriever_invoke,
      RAGService.world, zoom, called, modify, get, lift_res, ret, entries_of; cbn.
  destruct (retriever_results _ question _) as [docs|err]; cbn; [|done].
  by destruct (chat_model_invoke _ _).
Qed.

(** X7. A question to a registered session changes neither the registry
    nor any collection of the vector store, whatever the request asks and
    however it ends: only the log and the trace grow. *)
Theorem ask_question_changes_no_index (env : gmap string string)
    (history : list request) (req : main.QuestionRequest) :
  let app := serve_all history (main.App0 env) in
  is_Some (main._sessions app !! main.session_id req) →
  main._sessions (main.ask_question req app).2 = main._sessions app ∧
  collections (main.world_of (main.ask_question req app).2)
    = collections (main.world_of app).
Proof.
  cbv zeta. set (app := serve_all history (main.App0 env)).
  intros Hreg. pose proof Hreg as [svc E].
  assert (app_standard app) as Hready.
  { apply app_standard_serve_all. intros s svc0. cbn. by rewrite lookup_empty. }
  destruct (Hready _ _ E) as [(v & Hv & [vs Hvs]) _].
  destruct app as [reg w]. cbn [main._sessions main.world_of] in *.
  unfold main.ask_question, try_except.
  rewrite (bind_Ok _ _ _ _ _
             (get_rag_service_registered (main.session_id req)
                {| main._sessions := reg; main.world_of := w |} Hreg)).
  destruct (get_llm_world (main.provider req) (main.model req) (main.temperature req)
              (Some (main.api_key req)) w) as (Hc1 & _).
  destruct (llm_factory.get_llm _ _ _ _ w) as [[llm|e] w1] eqn:Hllm; cbn [snd] in Hc1.
  - erewrite bind_Ok by (rewrite main_world_run; cbn [main.world_of]; rewrite Hllm;
                         reflexivity).
    cbn [main._sessions main.world_of fst snd].
    destruct (query_with_sources_ready (main.question req) llm svc v vs w1 Hv Hvs)
      as [Hs Hc2].
    destruct (RAGService.query_with_sources _ llm (svc, w1)) as [[res|e] [svc' w2]] eqn:Hq;
      cbn [fst snd] in Hs, Hc2; subst svc'.
    + erewrite bind_Ok by (erewrite service_run by exact E; cbn [main.world_of];
                           rewrite Hq; reflexivity).
      cbn. split; [by apply insert_id | congruence].
    + erewrite bind_Raise by (erewrite service_run by exact E; cbn [main.world_of];
                              rewrite Hq; reflexivity).
      destruct e; cbn; (split; [by apply insert_id | congruence]).
  - erewrite bind_Raise by (rewrite main_world_run; cbn [main.world_of]; rewrite Hllm;
                            reflexivity).
    destruct e; cbn; by split.
Qed.

Lemma get_llm_environ provider model temperature api_key (w1 w2 : World) :
  environ w1 = environ w2 →
  (llm_factory.get_llm provider model temperature api_key w1).1
    = (llm_factory.get_llm provider model temperature api_key w2).1.
Proof.
  intros He. unfold llm_factory.get_llm.
  destruct (String.eqb provider "groq");
    [|destruct (String.eqb provider "gemini");
      [|destruct (String.eqb provider "ollama")]];
    unfold llm_factory.getenv, bind, get, ret, raise, emit, modify;
    cbn -[Py.or_]; rewrite ?He; try done.
  - by destruct (Py.or_ _ _) as [[|c k]|].
  - by destruct (Py.or_ _ _) as [[|c k]|].
Qed.

Lemma get_llm_returns provider model temperature api_key (w : World) llm :
  (llm_factory.get_llm provider model temperature api_key w).1 = Ok llm →
  (llm_factory.get_llm provider model temperature api_key w).2 = w.
Proof.
  unfold llm_factory.get_llm.
  destruct (String.eqb provider "groq");
    [|destruct (String.eqb provider "gemini");
      [|destruct (String.eqb provider "ollama")]];
    unfold llm_factory.getenv, bind, get, ret, raise, emit, modify;
    cbn -[Py.or_]; try done.
  - by destruct (Py.or_ _ _) as [[|c k]|].
  - by destruct (Py.or_ _ _) as [[|c k]|].
Qed.

Lemma get_rag_service_environ sid (app : main.App) :
  environ (main.world_of (main.get_rag_service sid app).2)
    = environ (main.world_of app).
Proof.
  unfold main.get_rag_service, bind, get. cbn beta iota.
  destruct (main._sessions app !! sid) as [svc|] eqn:E; cbn; by rewrite ?E.
Qed.

(** X8. [ask_question] answers with what its stages give.  When [get_llm]
    raises [e], or when it returns a model and the query of the session
    (created on the way if need be) raises [e], the handler raises the HTTP
    error of [e]: status 400 with the message for a [ValueError], status
    500 with [str(e)] for any other exception.  When the query returns, the
    response carries its answer and its references. *)
Theorem ask_question_status_codes (req : main.QuestionRequest) (app : main.App) :
  (main.ask_question req app).1 =
    match (llm_factory.get_llm (main.provider req) (main.model req)
             (main.temperature req) (Some (main.api_key req))
             (main.world_of app)).1 with
    | Raise e => Raise (http_error e)
    | Ok llm =>
        match (retrieval_against (main.session_id req) (main.question req) llm
                 app).1 with
        | Ok res => Ok {| main.answer := res.1; main.references := res.2 |}
        | Raise e => Raise (http_error e)
        end
    end.
Proof.
  unfold main.ask_question, try_except, retrieval_against.
  destruct (get_rag_service_state (main.session_id req) app) as (Hok & _ & _).
  pose proof (get_rag_service_environ (main.session_id req) app) as Henv.
  destruct (main.get_rag_service (main.session_id req) app) as [r1 a1] eqn:Hget.
  cbn [fst snd] in Hok, Henv. subst r1.
  rewrite (bind_Ok _ _ _ _ _ Hget).
  rewrite <- (get_llm_environ (main.provider req) (main.model req)
                (main.temperature req) (Some (main.api_key req)) _ _ Henv).
  pose proof (get_llm_returns (main.provider req) (main.model req)
                (main.temperature req) (Some (main.api_key req))
                (main.world_of a1)) as Hsame.
  destruct (llm_factory.get_llm (main.provider req) (main.model req)
              (main.temperature req) (Some (main.api_key req)) (main.world_of a1))
    as [[llm|e] w1] eqn:Hllm; cbn [fst snd] in *.
  - specialize (Hsame llm eq_refl). subst w1.
    rewrite (bind_Ok _ _ _ _ _ Hget).
    erewrite bind_Ok by (rewrite main_world_run, Hllm; reflexivity).
    cbn [fst snd].
    assert ({| main._sessions := main._sessions a1;
               main.world_of := main.world_of a1 |} = a1) as -> by by destruct a1.
    destruct (main.service (main.session_id req)
                (RAGService.query_with_sources (main.question req) llm) a1)
      as [[res|e] a2] eqn:Hq.
    + by rewrite (bind_Ok _ _ _ _ _ Hq).
    + rewrite (bind_Raise _ _ _ _ _ Hq). by destruct e.
  - erewrite bind_Raise by (rewrite main_world_run, Hllm; reflexivity).
    by destruct e.
Qed.

(** X9. A question that names a provider [get_llm] does not know is
    answered with HTTP 400 and the detail "Unknown provider: <provider>",
    and the chat model and the retriever are never called; yet the session
    has been created on the way: it is registered afterwards. *)
Theorem ask_question_unknown_provider (req : main.QuestionRequest) (app : main.App) :
  main.provider req ∉ supported_providers →
  let r := main.ask_question req app in
  r.1 = Raise (HTTPException 400 ("Unknown provider: " ++ main.provider req)) ∧
  is_Some (main._sessions r.2 !! main.session_id req) ∧
  retriever_calls (trace (main.world_of r.2)) = retriever_calls (trace (main.world_of app)).
Proof.
  intros Hp. cbv zeta.
  destruct (get_rag_service_state (main.session_id req) app) as (Hr & Hreg & Ht).
  destruct (main.get_rag_service (main.session_id req) app) as [r1 [reg1 w1]] eqn:Hget.
  cbn [fst snd main._sessions main.world_of] in *. subst r1.
  unfold main.ask_question, try_except.
  rewrite (bind_Ok _ _ _ _ _ Hget).
  assert (llm_factory.get_llm (main.provider req) (main.model req)
            (main.temperature req) (Some (main.api_key req)) w1
          = (Raise (ValueError ("Unknown provider: " ++ main.provider req)),
             {| collections := collections w1; environ := environ w1;
                log := log w1 ++
                  [ {| levelname := CRITICAL;
                       message := "Unknown LLM provider: " ++ main.provider req |} ];
                trace := trace w1 |})) as Hllm.
  { unfold llm_factory.get_llm. unfold supported_providers in Hp.
    rewrite !eqb_neq_false by (intros Heq; apply Hp; rewrite Heq; set_solver).
    reflexivity. }
  erewrite bind_Raise by (rewrite main_world_run; cbn [main.world_of]; rewrite Hllm;
                          reflexivity).
  cbn. done.
Qed.


(** *** What an upload indexes *)




(** *** What the chat model is asked *)







(** *** The embedding model is loaded once *)

Lemma embeddings_loaded_app (t new : list Call) :
  embeddings_loaded (t ++ new) = embeddings_loaded t + embeddings_loaded new.
Proof. unfold embeddings_loaded. by rewrite List.filter_app, length_app. Qed.

Lemma run_call_embeddings (c : vs_call) (s : VectorStoreService.t * World) :
  (run_call c s).1 = Ok tt ∧
  (is_Some (VectorStoreService._embeddings s.1) →
     is_Some (VectorStoreService._embeddings (run_call c s).2.1) ∧
     embeddings_loaded (trace (run_call c s).2.2) = embeddings_loaded (trace s.2)) ∧
  (embeddings_loaded (trace (run_call c s).2.2) = embeddings_loaded (trace s.2) ∨
   is_Some (VectorStoreService._embeddings (run_call c s).2.1) ∧
   embeddings_loaded (trace (run_call c s).2.2) = S (embeddings_loaded (trace s.2))).
Proof.
  destruct s as [[name em mk ek [e|] [vs|]] w];
    destruct c as [| | | |documents|documents];
    unfold run_call, VectorStoreService.create_from_documents;
    try destruct (bool_decide (VectorStoreService.empty_docs documents ≠ []));
    cbn -[embeddings_loaded]; rewrite <- ?app_assoc, ?embeddings_loaded_app; cbn.
  all: split; [done|].
  all: split; [intros [? ?]; first [done | split; [by eexists | lia]]|].
  all: first [ left; lia | right; split; [by eexists | lia] ].
Qed.

Lemma run_calls_embeddings (cs : list vs_call) :
  ∀ s : VectorStoreService.t * World,
    (is_Some (VectorStoreService._embeddings s.1) →
       embeddings_loaded (trace (run_calls cs s).2.2) = embeddings_loaded (trace s.2)) ∧
    (embeddings_loaded (trace (run_calls cs s).2.2)
       ≤ embeddings_loaded (trace s.2) + 1)%nat.
Proof.
  induction cs as [|c cs IH]; intros s.
  - split; [done | cbn; lia].
  - unfold run_calls. cbn [for_each].
    destruct (run_call_embeddings c s) as (Hr & Hsome & Hstep).
    destruct (run_call c s) as [r s1] eqn:E. cbn [fst snd] in *. subst r.
    rewrite (bind_Ok _ _ _ _ _ E). destruct (IH s1) as [IHsome IHle].
    unfold run_calls in *. split.
    + intros Hs. destruct (Hsome Hs) as [Hs1 Heq]. rewrite IHsome by done. done.
    + destruct Hstep as [Heq|[Hs1 Heq]].
      * lia.
      * rewrite IHsome by done. lia.
Qed.

(** X12. However a vector store service is driven after its construction,
    the embedding model is constructed at most once: the [embeddings]
    property caches it, and every store the service creates reuses it. *)
Theorem embeddings_loaded_at_most_once (name : string) (em : option string)
    (mk : option (gmap string string)) (ek : option (gmap string bool))
    (cs : list vs_call) (w : World) :
  (embeddings_loaded
     (trace (run_calls cs (VectorStoreService.__init__ name em mk ek, w)).2.2)
   ≤ embeddings_loaded (trace w) + 1)%nat.
Proof. apply run_calls_embeddings. Qed.

(** X13. For each of the two strategies it knows, [retrieve] builds one
    retriever on its vector store and invokes it once with the query: for
    "similarity" with the search arguments [k] alone, for "mmr" with [k] and
    [fetch_k = 2k] and nothing else.  It returns what that invocation
    returns, and no collection changes. *)
Theorem retrieve_one_call (self : RetrievalService.t) (query strategy : string)
    (k : Z) (w : World) :
  strategy = "similarity" ∨ strategy = "mmr" →
  let r := RetrievalService.retrieve self query strategy k w in
  let vs := RetrievalService.vectorstore self in
  ∃ retriever,
    trace r.2 = trace w ++ [CallRetrieverInvoke retriever query] ∧
    retriever_vectorstore retriever = vs ∧
    search_type retriever = strategy ∧
    search_kwargs retriever !! "k" = Some k ∧
    search_kwargs retriever !! "fetch_k"
      = (if String.eqb strategy "mmr" then Some (2 * k)%Z else None) ∧
    (∀ key, key ≠ "k" → key ≠ "fetch_k" → search_kwargs retriever !! key = None) ∧
    r.1 = retriever_results retriever query
            (entries_of (chroma_collection_name vs) w) ∧
    collections r.2 = collections w.
Proof.
  intros [-> | ->]; cbv zeta; unfold RetrievalService.retrieve;
    cbn [String.eqb Ascii.eqb Bool.eqb].
  - exists (as_retriever (RetrievalService.vectorstore self) "similarity"
              {[ "k" := k ]}).
    unfold bind, ret, retriever_invoke, called, modify, get, lift_res.
    cbn -[retriever_results].
    split; [by destruct (retriever_results _ _ _)|].
    split; [done|]. split; [done|]. split; [by rewrite lookup_singleton_eq|].
    split; [done|]. split; [intros key Hk _; by rewrite lookup_singleton_ne|].
    by destruct (retriever_results _ _ _).
  - exists (as_retriever (RetrievalService.vectorstore self) "mmr"
              (<["fetch_k" := (k * 2)%Z]> {[ "k" := k ]})).
    unfold bind, ret, retriever_invoke, called, modify, get, lift_res.
    cbn -[retriever_results].
    split; [by destruct (retriever_results _ _ _)|].
    split; [done|]. split; [done|].
    split; [by rewrite lookup_insert_ne, lookup_singleton_eq|].
    split; [by rewrite lookup_insert_eq, (Z.mul_comm k 2)|].
    split; [intros key Hk Hf; by rewrite lookup_insert_ne, lookup_singleton_ne|].
    by destruct (retriever_results _ _ _).
Qed.

(** *** Which loader a file goes to *)

Lemma load_one_trace (documents : list Document) (file_path : string) (w : World) :
  trace (DocumentService.load_one documents file_path w).2
    = trace w ++ loader_call file_path.
Proof.
  unfold DocumentService.load_one, loader_call, try_except,
    DocumentService.load_pdf_document, DocumentService.load_html_document,
    bind, called, emit, modify, lift_res, ret.
  destruct (Py.endswith file_path ".pdf").
  - by destruct (PyPDFLoader_load file_path).
  - destruct (Py.endswith file_path ".html").
    + by destruct (BSHTMLLoader_load file_path "latin-1").
    + cbn. by rewrite app_nil_r.
Qed.

Lemma load_loop_trace (file_paths : list string) :
  ∀ (documents : list Document) (w : World),
    trace (DocumentService.load_loop file_paths documents w).2
      = trace w ++ concat (loader_call <$> file_paths).
Proof.
  induction file_paths as [|file_path rest IH]; intros documents w.
  - cbn. by rewrite app_nil_r.
  - cbn [DocumentService.load_loop].
    pose proof (load_one_spec documents file_path w) as (Hr & _).
    pose proof (load_one_trace documents file_path w) as Ht.
    destruct (DocumentService.load_one documents file_path w) as [r1 w1] eqn:E.
    cbn [fst snd] in *. subst r1. rewrite (bind_Ok _ _ _ _ _ E), IH, Ht.
    cbn [fmap list_fmap concat]. by rewrite app_assoc.
Qed.

(** X14. [load_documents] calls exactly one loader for every path that ends
    in ".pdf" (the PDF loader) or, failing that, in ".html" (the HTML
    loader, always with the encoding latin-1), in the order of the paths,
    and calls nothing for any other path; a single path given as a string
    is treated as the one-element list. *)
Theorem load_documents_dispatch (file_paths : list string) (file_path : string)
    (w : World) :
  trace (DocumentService.load_documents (inr file_paths) w).2
    = trace w ++ concat (loader_call <$> file_paths) ∧
  DocumentService.load_documents (inl file_path) w
    = DocumentService.load_documents (inr [file_path]) w.
Proof. split; [apply load_loop_trace | reflexivity]. Qed.

End Further.

(** ** Further properties: uploads and directories *)

Section Files.
Context `{Libraries} `{FileSystem}.

Lemma save_one_spec (upload_folder : string) (saved_files : list string)
    (file : UploadFile) (w : World) :
  let r := main_endpoints.save_one upload_folder saved_files file w in
  collections r.2 = collections w ∧ trace r.2 = trace w ∧ environ r.2 = environ w ∧
  match accepted_name file with
  | None => r.1 = Ok saved_files
  | Some name =>
      match save_outcome (path_join upload_folder name) file with
      | Ok _ => r.1 = Ok (saved_files ++ [path_join upload_folder name])
      | Raise _ => r.1 = Raise (HTTPException 500 ("Failed to save " ++ name))
      end
  end.
Proof.
  cbv zeta. unfold main_endpoints.save_one, accepted_name, save_outcome.
  destruct (filename file) as [[|c rest]|]; try done.
  destruct (Py.endswith (String c rest) ".pdf" || Py.endswith (String c rest) ".html");
    cbn [negb]; [|done].
  unfold try_except, bind, lift_res, ret, raise, emit, modify.
  destruct (read file) as [content|e]; [|done].
  by destruct (write_bytes _ content).
Qed.

Lemma save_loop_spec (upload_folder : string) (files : list UploadFile) :
  ∀ (saved_files : list string) (w : World),
    let r := main_endpoints.save_loop upload_folder files saved_files w in
    collections r.2 = collections w ∧ trace r.2 = trace w ∧ environ r.2 = environ w ∧
    (r.1 = Ok (saved_files ++ saved_paths upload_folder files) ∨
     ∃ file name, file ∈ files ∧ accepted_name file = Some name ∧
       is_ok (save_outcome (path_join upload_folder name) file) = false ∧
       r.1 = Raise (HTTPException 500 ("Failed to save " ++ name))).
Proof.
  induction files as [|file rest IH]; intros saved_files w; cbv zeta.
  - cbn. rewrite app_nil_r. repeat split. by left.
  - cbn [main_endpoints.save_loop].
    pose proof (save_one_spec upload_folder saved_files file w) as (Hc & Ht & He & Hr).
    destruct (main_endpoints.save_one upload_folder saved_files file w)
      as [[saved'|e] w1] eqn:E; cbn [fst snd] in *.
    + rewrite (bind_Ok _ _ _ _ _ E).
      destruct (IH saved' w1) as (Hc' & Ht' & He' & Hr').
      split; [congruence|]. split; [congruence|]. split; [congruence|].
      destruct Hr' as [Hok|(f & name & Hin & Hacc & Hfail & Hraise)].
      * left. rewrite Hok. f_equal. unfold saved_paths. cbn [omap list_omap].
        destruct (accepted_name file) as [name|]; cbn.
        -- destruct (save_outcome _ file); [|done]. injection Hr as ->.
           by rewrite <- app_assoc.
        -- by injection Hr as ->.
      * right. exists f, name. split; [by right | done].
    + rewrite (bind_Raise _ _ _ _ _ E). split; [done|]. split; [done|]. split; [done|].
      right. destruct (accepted_name file) as [name|] eqn:Hacc; [|done].
      destruct (save_outcome _ file) eqn:Hout; [done|].
      exists file, name. split; [by left|]. split; [done|]. split; [by rewrite Hout | done].
Qed.

(** X15. The upload loop keeps, in input order, one path per file whose
    name is non-empty and ends in ".pdf" or ".html", and skips the others;
    when every such file can be read and written, it returns exactly those
    paths.  When one of them cannot, the loop stops with HTTP 500 "Failed to
    save <name>" for a file that failed.  It never touches the vector
    store. *)
Theorem save_loop_keeps_accepted (upload_folder : string) (files : list UploadFile)
    (w : World) :
  let r := main_endpoints.save_loop upload_folder files [] w in
  collections r.2 = collections w ∧
  ((∀ file name, file ∈ files → accepted_name file = Some name →
      is_ok (save_outcome (path_join upload_folder name) file) = true) →
   r.1 = Ok (saved_paths upload_folder files)) ∧
  (r.1 = Ok (saved_paths upload_folder files) ∨
   ∃ file name, file ∈ files ∧ accepted_name file = Some name ∧
     is_ok (save_outcome (path_join upload_folder name) file) = false ∧
     r.1 = Raise (HTTPException 500 ("Failed to save " ++ name))).
Proof.
  cbv zeta.
  destruct (save_loop_spec upload_folder files [] w) as (Hc & _ & _ & Hr).
  cbn [app] in Hr. split; [done|]. split; [|done].
  intros Hall. destruct Hr as [Hok|(f & name & Hin & Hacc & Hfail & _)]; [done|].
  rewrite (Hall f name Hin Hacc) in Hfail. done.
Qed.

(** X16. An upload in which no file has an acceptable name is answered
    with HTTP 400 "No valid PDF or HTML files provided", and nothing else
    happens: no session is created, no loader is called and no collection
    changes. *)
Theorem upload_files_without_valid_file (upload_id session_id : string)
    (files : list UploadFile) (app : main.App) :
  (∀ file, file ∈ files → accepted_name file = None) →
  let r := main_endpoints.upload_files upload_id session_id files app in
  r.1 = Raise (HTTPException 400 "No valid PDF or HTML files provided") ∧
  main._sessions r.2 = main._sessions app ∧
  collections (main.world_of r.2) = collections (main.world_of app) ∧
  trace (main.world_of r.2) = trace (main.world_of app).
Proof.
  intros Hnone. cbv zeta. unfold main_endpoints.upload_files.
  set (folder := path_join main_endpoints.UPLOAD_DIR upload_id).
  destruct (save_loop_spec folder files [] (main.world_of app)) as (Hc & Ht & _ & Hr).
  assert (saved_paths folder files = []) as Hsaved.
  { unfold saved_paths. clear Hr Hc Ht. induction files as [|f fs IH]; [done|].
    cbn [omap list_omap]. rewrite (Hnone f) by by left. cbn.
    apply IH. intros g Hg. apply Hnone. by right. }
  destruct Hr as [Hok|(f & name & Hin & Hacc & _)];
    [|by rewrite (Hnone f Hin) in Hacc].
  rewrite Hsaved in Hok. change ([] ++ [])%list with (@nil string) in Hok.
  destruct (main_endpoints.save_loop folder files [] (main.world_of app)) as [r1 w1] eqn:E.
  cbn [fst snd] in *. subst r1.
  erewrite bind_Ok by (rewrite main_world_run, E; reflexivity).
  cbn. done.
Qed.

(** X17. The upload handler fails only with HTTP 400 or HTTP 500, whatever
    the files, the loaders and the file system do. *)
Theorem upload_files_status_codes (upload_id session_id : string)
    (files : list UploadFile) (app : main.App) :
  match (main_endpoints.upload_files upload_id session_id files app).1 with
  | Ok _ => True
  | Raise (HTTPException status_code _) => status_code = 400%Z ∨ status_code = 500%Z
  | Raise _ => False
  end.
Proof.
  unfold main_endpoints.upload_files.
  set (folder := path_join main_endpoints.UPLOAD_DIR upload_id).
  destruct (save_loop_spec folder files [] (main.world_of app)) as (_ & _ & _ & Hr).
  destruct (main_endpoints.save_loop folder files [] (main.world_of app)) as [r1 w1] eqn:E.
  cbn [fst snd] in Hr. destruct Hr as [->|(f & name & _ & _ & _ & ->)].
  - erewrite bind_Ok by (rewrite main_world_run, E; reflexivity).
    unfold main.upload_files.
    destruct ([] ++ saved_paths folder files) as [|p ps]; [cbn; auto|].
    unfold try_except.
    match goal with |- context [bind ?m ?k ?s] => destruct (bind m k s) as [[res|e] app'] end.
    + done.
    + cbn. auto.
  - erewrite bind_Raise by (rewrite main_world_run, E; reflexivity).
    cbn. auto.
Qed.

Lemma load_listed_spec (loader : string → Res (list Document)) (mk : string → Call)
    (documents : list Document) (file : Path) (w : World) :
  let r := load_listed (λ p, do! called (mk p) in lift_res (loader p))
             documents file w in
  r.1 = Ok (documents ++ listed_documents loader [file]) ∧
  log r.2 = log w ++ listed_warnings loader [file] ∧
  trace r.2 = trace w ++ [mk (path_str file)] ∧
  collections r.2 = collections w.
Proof.
  cbv zeta. unfold load_listed, listed_documents, listed_warnings, try_except,
    bind, called, emit, modify, lift_res, ret.
  cbn [fmap list_fmap concat].
  destruct (loader (path_str file)); cbn; rewrite ?app_nil_r; done.
Qed.

Lemma load_listed_loop_spec (loader : string → Res (list Document))
    (mk : string → Call) (files : list Path) :
  ∀ (documents : list Document) (w : World),
    let r := load_listed_loop (λ p, do! called (mk p) in lift_res (loader p))
               files documents w in
    r.1 = Ok (documents ++ listed_documents loader files) ∧
    log r.2 = log w ++ listed_warnings loader files ∧
    trace r.2 = trace w ++ ((λ file, mk (path_str file)) <$> files) ∧
    collections r.2 = collections w.
Proof.
  induction files as [|file rest IH]; intros documents w; cbv zeta.
  - cbn. rewrite !app_nil_r. done.
  - cbn [load_listed_loop].
    pose proof (load_listed_spec loader mk documents file w) as (Hr & Hl & Ht & Hc).
    destruct (load_listed _ documents file w) as [r1 w1] eqn:E.
    cbn [fst snd] in *. subst r1. rewrite (bind_Ok _ _ _ _ _ E).
    specialize (IH (documents ++ listed_documents loader [file]) w1)
      as (Hr' & Hl' & Ht' & Hc').
    rewrite Hr', Hl', Ht', Hc', Hl, Ht, Hc.
    unfold listed_documents, listed_warnings. cbn [fmap list_fmap concat].
    rewrite !app_nil_r, <- !app_assoc. done.
Qed.

Lemma directory_run (directory : string) (w : World) :
  let r := load_documents_from_directory directory w in
  let pdf_files := glob directory "*.pdf" in
  let html_files := glob directory "*.html" in
  let html_loader := λ p, BSHTMLLoader_load p "latin-1" in
  r.1 = Ok (listed_documents PyPDFLoader_load pdf_files
            ++ listed_documents html_loader html_files) ∧
  log r.2 = log w ++ listed_warnings PyPDFLoader_load pdf_files
                  ++ listed_warnings html_loader html_files ∧
  trace r.2 = trace w
              ++ ((λ file, CallPyPDFLoader (path_str file)) <$> pdf_files)
              ++ ((λ file, CallBSHTMLLoader (path_str file) "latin-1") <$> html_files) ∧
  collections r.2 = collections w.
Proof.
  cbv zeta. unfold load_documents_from_directory.
  pose proof (load_listed_loop_spec PyPDFLoader_load CallPyPDFLoader
                (glob directory "*.pdf") [] w) as (Hr & Hl & Ht & Hc).
  cbv zeta in Hr, Hl, Ht, Hc.
  change (λ p, do! called (CallPyPDFLoader p) in lift_res (PyPDFLoader_load p))
    with DocumentService.load_pdf_document in Hr, Hl, Ht, Hc.
  destruct (load_listed_loop DocumentService.load_pdf_document _ [] w)
    as [r1 w1] eqn:E1.
  cbn [fst snd app] in *. subst r1. rewrite (bind_Ok _ _ _ _ _ E1).
  pose proof (load_listed_loop_spec (λ p, BSHTMLLoader_load p "latin-1")
                (λ p, CallBSHTMLLoader p "latin-1")
                (glob directory "*.html")
                (listed_documents PyPDFLoader_load (glob directory "*.pdf")) w1)
    as (Hr' & Hl' & Ht' & Hc').
  cbv zeta in Hr', Hl', Ht', Hc'.
  change (λ p, do! called (CallBSHTMLLoader p "latin-1")
               in lift_res (BSHTMLLoader_load p "latin-1"))
    with (λ p, DocumentService.load_html_document p "latin-1") in Hr', Hl', Ht', Hc'.
  destruct (load_listed_loop (λ p, DocumentService.load_html_document p "latin-1") _ _ w1)
    as [r2 w2] eqn:E2.
  cbn [fst snd] in *. subst r2. rewrite (bind_Ok _ _ _ _ _ E2).
  cbn [ret fst snd]. rewrite Hl', Ht', Hc', Hl, Ht, Hc, <- !app_assoc. done.
Qed.

(** X18. [load_documents_from_directory] never raises.  It returns the
    Documents of the PDFs the directory lists, in listing order, followed by
    those of its HTML files; every listed PDF goes to the PDF loader and
    every listed HTML file to the HTML loader with the encoding latin-1, by
    its full path; a file that cannot be read contributes nothing and leaves
    one WARNING that names it by its base name.  The collections are
    untouched. *)
Theorem load_documents_from_directory_result (directory : string) (w : World) :
  let r := load_documents_from_directory directory w in
  let pdf_files := glob directory "*.pdf" in
  let html_files := glob directory "*.html" in
  let html_loader := λ p, BSHTMLLoader_load p "latin-1" in
  r.1 = Ok (listed_documents PyPDFLoader_load pdf_files
            ++ listed_documents html_loader html_files) ∧
  log r.2 = log w ++ listed_warnings PyPDFLoader_load pdf_files
                  ++ listed_warnings html_loader html_files ∧
  trace r.2 = trace w
              ++ ((λ file, CallPyPDFLoader (path_str file)) <$> pdf_files)
              ++ ((λ file, CallBSHTMLLoader (path_str file) "latin-1") <$> html_files) ∧
  collections r.2 = collections w.
Proof. apply directory_run. Qed.

Lemma substring_suffix (t : string) :
  ∀ n m : nat, (n + m = String.length t)%nat →
    ∃ before, t = (before ++ String.substring n m t)%string.
Proof.
  induction t as [|c t IH]; intros n m Hn.
  - destruct n, m; try done. by exists "".
  - destruct n as [|n].
    + exists "". cbn in Hn. subst m.
      change (String c t = String.substring 0 (S (String.length t)) (String c t)).
      cbn. f_equal. clear IH. induction t as [|d t IHt]; [done|]. cbn. by f_equal.
    + destruct (IH n m) as [before Hb]; [cbn in Hn; lia|].
      exists (String c before). cbn [String.substring].
      change (String c t = String c (before ++ String.substring n m t)). by f_equal.
Qed.

Lemma endswith_suffix (s suffix : string) :
  Py.endswith s suffix = true → ∃ before, s = (before ++ suffix)%string.
Proof.
  unfold Py.endswith. intros [Hlen Heq%String.eqb_eq]%andb_prop.
  apply bool_decide_eq_true_1 in Hlen.
  destruct (substring_suffix s (String.length s - String.length suffix)%nat
              (String.length suffix)) as [before Hb]; [lia|].
  exists before. by rewrite Heq in Hb.
Qed.

Lemma html_is_not_pdf (s : string) :
  Py.endswith s ".html" = true → Py.endswith s ".pdf" = false.
Proof.
  intros [a Ha]%endswith_suffix.
  destruct (Py.endswith s ".pdf") eqn:E; [|done].
  apply endswith_suffix in E as [b Hb]. exfalso. subst s.
  revert b Hb. induction a as [|c a IH]; intros b Hb.
  - do 5 (destruct b as [|? b];
          unfold String.append in Hb; fold String.append in Hb;
          [discriminate Hb|]; injection Hb as _ Hb).
    destruct b; unfold String.append in Hb; discriminate Hb.
  - destruct b as [|d b]; unfold String.append in Hb; fold String.append in Hb.
    + injection Hb as _ Hb.
      do 3 (destruct a as [|? a];
            unfold String.append in Hb; fold String.append in Hb;
            [discriminate Hb|]; injection Hb as _ Hb).
      destruct a; unfold String.append in Hb; discriminate Hb.
    + injection Hb as _ Hb. by apply (IH b).
Qed.

(** X19. When the directory listing honours its patterns (every file listed
    for "*.pdf" has a path ending in ".pdf", every file listed for "*.html"
    a path ending in ".html"), [load_documents_from_directory] returns the
    same Documents, and calls the same loaders in the same order, as
    [load_documents] on the listed paths, PDFs first. *)
Theorem load_documents_from_directory_as_list (directory : string) (w : World) :
  let pdf_files := glob directory "*.pdf" in
  let html_files := glob directory "*.html" in
  let file_paths := path_str <$> (pdf_files ++ html_files) in
  (∀ file, file ∈ pdf_files → Py.endswith (path_str file) ".pdf" = true) →
  (∀ file, file ∈ html_files → Py.endswith (path_str file) ".html" = true) →
  (load_documents_from_directory directory w).1
    = (DocumentService.load_documents (inr file_paths) w).1 ∧
  trace (load_documents_from_directory directory w).2
    = trace (DocumentService.load_documents (inr file_paths) w).2.
Proof.
  cbv zeta. intros Hpdf Hhtml.
  destruct (directory_run directory w) as (Hr & _ & Ht & _).
  cbv zeta in Hr, Ht. rewrite Hr, Ht. clear Hr Ht.
  unfold DocumentService.load_documents.
  destruct (load_loop_spec (path_str <$> (glob directory "*.pdf" ++ glob directory "*.html"))
              [] w) as (Hr & _).
  rewrite Hr, load_loop_trace. cbn [app]. clear Hr.
  rewrite !fmap_app, !concat_app.
  assert (∀ files : list Path,
            (∀ file, file ∈ files → Py.endswith (path_str file) ".pdf" = true) →
            listed_documents PyPDFLoader_load files
              = concat (loaded_from <$> (path_str <$> files)) ∧
            ((λ file, CallPyPDFLoader (path_str file)) <$> files)
              = concat (loader_call <$> (path_str <$> files))) as Hp.
  { induction files as [|f fs IH]; intros Hall; [done|].
    destruct IH as [IH1 IH2]; [intros g Hg; apply Hall; by right|].
    unfold listed_documents in IH1 |- *. cbn [fmap list_fmap concat].
    rewrite IH1, IH2. unfold loaded_from, extraction, loader_call.
    rewrite (Hall f) by by left. split; [|done].
    by destruct (PyPDFLoader_load (path_str f)). }
  assert (∀ files : list Path,
            (∀ file, file ∈ files → Py.endswith (path_str file) ".html" = true) →
            listed_documents (λ p, BSHTMLLoader_load p "latin-1") files
              = concat (loaded_from <$> (path_str <$> files)) ∧
            ((λ file, CallBSHTMLLoader (path_str file) "latin-1") <$> files)
              = concat (loader_call <$> (path_str <$> files))) as Hh.
  { induction files as [|f fs IH]; intros Hall; [done|].
    destruct IH as [IH1 IH2]; [intros g Hg; apply Hall; by right|].
    unfold listed_documents in IH1 |- *. cbn [fmap list_fmap concat].
    rewrite IH1, IH2. unfold loaded_from, extraction, loader_call.
    assert (Py.endswith (path_str f) ".html" = true) as Hf by (apply Hall; by left).
    rewrite (html_is_not_pdf _ Hf), Hf. split; [|done].
    by destruct (BSHTMLLoader_load (path_str f) "latin-1"). }
  destruct (Hp _ Hpdf) as [-> ->]. destruct (Hh _ Hhtml) as [-> ->]. done.
Qed.


(** X20. The providers offered by [GET /models] are served: for every
    provider that endpoint lists, the configuration also describes the
    provider, and once the environment variable the configuration names as
    its [key_name] holds a non-empty key, [get_llm] returns a model for that
    provider, whatever the model name and whether or not the request carries
    a key of its own. *)
Theorem offered_providers_resolve (provider model : string)
    (models : list (string * string)) (temperature : Q)
    (api_key : option string) (w : World) :
  main_endpoints.get_available_models !! provider = Some models →
  ∃ info key_name,
    RAGConfig.available_providers RAGConfig.__init__ !! provider = Some info ∧
    info !! "key_name" = Some key_name ∧
    ∀ key, environ w !! key_name = Some key → key ≠ "" →
      ∃ llm, (llm_factory.get_llm provider model temperature api_key w).1 = Ok llm.
Proof.
  unfold main_endpoints.get_available_models, RAGConfig.__init__.
  cbn [RAGConfig.available_language_models RAGConfig.available_providers].
  intros Hm.
  destruct (decide (provider = "groq")) as [->|Hgroq];
    [|destruct (decide (provider = "gemini")) as [->|Hgemini]].
  - eexists _, "GROQ_API_KEY". split; [by rewrite lookup_insert_eq|].
    split; [done|]. intros key Hkey Hne.
    unfold llm_factory.get_llm, llm_factory.getenv, bind, get, ret.
    cbn [String.eqb Ascii.eqb Bool.eqb fst snd]. rewrite Hkey.
    destruct key as [|c key]; [done|].
    destruct api_key as [[|d k]|]; cbn; eauto.
  - eexists _, "GOOGLE_API_KEY". split.
    { rewrite lookup_insert_ne by done. by rewrite lookup_singleton_eq. }
    split; [done|]. intros key Hkey Hne.
    unfold llm_factory.get_llm, llm_factory.getenv, bind, get, ret.
    cbn [String.eqb Ascii.eqb Bool.eqb fst snd]. rewrite Hkey.
    destruct key as [|c key]; [done|].
    destruct api_key as [[|d k]|]; cbn;
      destruct (environ w !! "GEMINI_API_KEY") as [[|e g]|]; cbn; eauto.
  - rewrite lookup_insert_ne, lookup_singleton_ne in Hm by done. done.
Qed.

End Files.

(** ** The further properties at concrete inputs *)

Section Runs.
#[local] Existing Instance sample_libraries.
#[local] Existing Instance sample_file_system.

(** X1 at a concrete input: a fresh orchestrator refuses the files. *)
Lemma add_documents_requires_store_witness :
  (RAGService.add_documents ["a.pdf"] false
     (RAGService.__init__ None "A", World0 ∅)).1
    = Raise (ValueError
               "Vector store does not exist. Use initialize_vectorstore() first.").
Proof.
  apply (add_documents_requires_store (RAGService.__init__ None "A") ["a.pdf"]
           (World0 ∅)).
  intros [v [Hv _]]. discriminate Hv.
Defined.


(** X3 at concrete inputs: a second initialization changes nothing, and
    the first one ends with the construction of the store. *)
Lemma initialize_vectorstore_creates_once_witness :
  (RAGService.initialize_vectorstore false (sample_ready.1, sample_ready.2)).2
    = (sample_ready.1, sample_ready.2) ∧
  last (trace (RAGService.initialize_vectorstore false
                 (RAGService.__init__ None "A", World0 ∅)).2.2)
    = Some (CallChroma "session_A").
Proof.
  split.
  - apply (initialize_vectorstore_creates_once sample_ready.1 false sample_ready.2);
      [|reflexivity].
    eexists. split; [reflexivity|]. eexists. reflexivity.
  - destruct (initialize_vectorstore_creates_once (RAGService.__init__ None "A")
                false (World0 ∅)) as (_ & _ & Hfirst).
    refine (proj1 (Hfirst _)). left. intros [v [Hv _]]. discriminate Hv.
Defined.

(** X4 at a concrete input: session "A" is created again after an upload
    and its deletion; with a library that reuses a collection of the same
    name, the new session finds the page of the old one. *)
Lemma get_rag_service_idempotent_witness :
  let app := serve_all [Upload "A" ["a.pdf"]; Delete "A"] (main.App0 ∅) in
  main._sessions app !! "A" = None ∧
  entries_of "session_A" (main.world_of (main.get_rag_service "A" app).2)
    = [ {| page_content := "a.pdf"; metadata := {[ "page" := "0" ]} |} ].
Proof.
  cbv zeta.
  assert (main._sessions (serve_all [Upload "A" ["a.pdf"]; Delete "A"] (main.App0 ∅))
            !! "A" = None) as Hgone by (vm_compute; reflexivity).
  split; [exact Hgone|].
  destruct (get_rag_service_idempotent "A"
              (serve_all [Upload "A" ["a.pdf"]; Delete "A"] (main.App0 ∅)))
    as (_ & _ & _ & _ & Hnew).
  destruct (Hnew Hgone) as (_ & Hentries & _).
  refine (eq_trans Hentries _). vm_compute. reflexivity.
Defined.

(** X5 at a concrete input: deleting a session that was never created. *)
Lemma delete_session_forgets_witness :
  main.delete_session "A" (main.App0 ∅)
    = (Raise (HTTPException 404 "Session not found"), main.App0 ∅).
Proof.
  apply (delete_session_forgets "A" (main.App0 ∅)). reflexivity.
Defined.

(** X6 at a concrete input: the session an upload has created. *)
Lemma registered_sessions_are_ready_witness :
  match main._sessions (serve_all [Upload "A" ["a.pdf"]] (main.App0 ∅)) !! "A" with
  | Some svc => RAGService.session_id svc = "A"
  | None => False
  end.
Proof.
  destruct (main._sessions (serve_all [Upload "A" ["a.pdf"]] (main.App0 ∅)) !! "A")
    as [svc|] eqn:E.
  - apply (registered_sessions_are_ready ∅ [Upload "A" ["a.pdf"]] "A" svc E).
  - vm_compute in E. discriminate E.
Defined.

(** X7 at a concrete input: a question to the session of an upload. *)
Lemma ask_question_changes_no_index_witness :
  let app := serve_all [Upload "A" ["a.pdf"]] (main.App0 ∅) in
  let req := {| main.session_id := "A"; main.question := "what?";
                main.provider := "ollama"; main.model := "llama3";
                main.api_key := ""; main.temperature := 0.5%Q |} in
  collections (main.world_of (main.ask_question req app).2)
    = collections (main.world_of app).
Proof.
  cbv zeta.
  apply (ask_question_changes_no_index ∅ [Upload "A" ["a.pdf"]]
           {| main.session_id := "A"; main.question := "what?";
              main.provider := "ollama"; main.model := "llama3";
              main.api_key := ""; main.temperature := 0.5%Q |}).
  vm_compute. eexists. reflexivity.
Defined.

(** X9 at a concrete input: the provider "openai". *)
Lemma ask_question_unknown_provider_witness :
  (main.ask_question
     {| main.session_id := "A"; main.question := "what?";
        main.provider := "openai"; main.model := "gpt";
        main.api_key := "k"; main.temperature := 0.5%Q |} (main.App0 ∅)).1
    = Raise (HTTPException 400 "Unknown provider: openai").
Proof.
  apply (ask_question_unknown_provider
           {| main.session_id := "A"; main.question := "what?";
              main.provider := "openai"; main.model := "gpt";
              main.api_key := "k"; main.temperature := 0.5%Q |} (main.App0 ∅)).
  unfold supported_providers. intros Hin.
  repeat (apply elem_of_cons in Hin as [Hin|Hin]; [discriminate|]).
  by apply elem_of_nil in Hin.
Defined.



(** X13 at a concrete input: strategy "mmr" with [k = 3] asks for a pool
    of six. *)
Lemma retrieve_one_call_witness :
  ∃ retriever,
    trace (RetrievalService.retrieve
             {| RetrievalService.vectorstore :=
                  {| chroma_collection_name := "c";
                     chroma_embedding_function :=
                       {| model_name := "m"; hf_model_kwargs := ∅;
                          hf_encode_kwargs := ∅ |} |} |}
             "query" "mmr" 3 (World0 ∅)).2
      = [CallRetrieverInvoke retriever "query"] ∧
    search_kwargs retriever !! "fetch_k" = Some 6%Z.
Proof.
  destruct (retrieve_one_call
              {| RetrievalService.vectorstore :=
                   {| chroma_collection_name := "c";
                      chroma_embedding_function :=
                        {| model_name := "m"; hf_model_kwargs := ∅;
                           hf_encode_kwargs := ∅ |} |} |}
              "query" "mmr" 3 (World0 ∅))
    as (retriever & Htrace & _ & _ & _ & Hfetch & _); [by right|].
  exists retriever. split; [exact Htrace | exact Hfetch].
Defined.

(** X15 at a concrete input: of a PDF, a text file and a file without a
    name, the PDF is saved. *)
Lemma save_loop_keeps_accepted_witness :
  (main_endpoints.save_loop "up"
     [ {| filename := Some "a.pdf"; read := Ok "%PDF" |};
       {| filename := Some "notes.txt"; read := Ok "text" |};
       {| filename := None; read := Ok "" |} ] [] (World0 ∅)).1
    = Ok ["up/a.pdf"].
Proof.
  destruct (save_loop_keeps_accepted "up"
              [ {| filename := Some "a.pdf"; read := Ok "%PDF" |};
                {| filename := Some "notes.txt"; read := Ok "text" |};
                {| filename := None; read := Ok "" |} ] (World0 ∅))
    as (_ & Hrun & _).
  refine (Hrun _). intros file name Hin Hacc.
  repeat (apply elem_of_cons in Hin as [->|Hin];
          [first [discriminate Hacc | injection Hacc as <-; reflexivity]|]).
  by apply elem_of_nil in Hin.
Defined.

(** X16 at a concrete input: a text file and a file without a name. *)
Lemma upload_files_without_valid_file_witness :
  (main_endpoints.upload_files "u1" "A"
     [ {| filename := Some "notes.txt"; read := Ok "text" |};
       {| filename := None; read := Ok "" |} ] (main.App0 ∅)).1
    = Raise (HTTPException 400 "No valid PDF or HTML files provided").
Proof.
  apply (upload_files_without_valid_file "u1" "A"
           [ {| filename := Some "notes.txt"; read := Ok "text" |};
             {| filename := None; read := Ok "" |} ] (main.App0 ∅)).
  intros file Hin.
  repeat (apply elem_of_cons in Hin as [->|Hin]; [reflexivity|]).
  by apply elem_of_nil in Hin.
Defined.

(** X19 at a concrete input: a directory of two PDFs, one of them corrupt,
    and one HTML file. *)
Lemma load_documents_from_directory_as_list_witness :
  (load_documents_from_directory "docs" (World0 ∅)).1
    = (DocumentService.load_documents
         (inr ["docs/a.pdf"; "docs/corrupt.pdf"; "docs/b.html"]) (World0 ∅)).1.
Proof.
  refine (proj1 (load_documents_from_directory_as_list "docs" (World0 ∅) _ _)).
  - intros file Hin.
    repeat (apply elem_of_cons in Hin as [->|Hin]; [reflexivity|]).
    by apply elem_of_nil in Hin.
  - intros file Hin.
    repeat (apply elem_of_cons in Hin as [->|Hin]; [reflexivity|]).
    by apply elem_of_nil in Hin.
Defined.

(** X20 at a concrete input: Gemini with the key in GOOGLE_API_KEY. *)
Lemma offered_providers_resolve_witness :
  ∃ llm,
    (llm_factory.get_llm "gemini" "gemini-2.5-pro" 0.5%Q None
       (World0 {[ "GOOGLE_API_KEY" := "secret" ]})).1 = Ok llm.
Proof.
  destruct (offered_providers_resolve "gemini" "gemini-2.5-pro"
              [ ("gemini-3.0-pro-preview", "gemini-3.0-pro-preview");
                ("gemini-3.0-flash-preview", "gemini-3.0-flash-preview");
                ("gemini-2.5-flash", "Gemini 2.5 Flash ");
                ("gemini-2.5-pro", "Gemini 2.5 Pro") ]
              0.5%Q None (World0 {[ "GOOGLE_API_KEY" := "secret" ]}) eq_refl)
    as (info & key_name & Hinfo & Hname & Hresolve).
  vm_compute in Hinfo. injection Hinfo as <-.
  vm_compute in Hname. injection Hname as <-.
  apply (Hresolve "secret"); [reflexivity | discriminate].
Defined.


End Runs.
